(** * littlenodedatabase: the authenticated item store of [server.js]

    A shallow embedding of the Express/lowdb server: JavaScript strings as
    sequences of UTF-16 code units, the lowdb instance as an in-memory copy
    plus the JSON file, the handlers as computations in a small state monad
    that also records the order of the I/O they perform. *)

From Stdlib Require Import String Ascii.
From stdpp Require Import base tactics option numbers list.

Local Open Scope N_scope.

(** ** JavaScript strings *)

(** A JS string is a sequence of UTF-16 code units; [s.length] counts them. *)
Abbreviation jsstring := (list N).

(** An ASCII literal as a JS string: one code unit per character. *)
Definition js (s : string) : jsstring :=
  (λ a, N_of_ascii a) <$> list_ascii_of_string s.

(** WhiteSpace and LineTerminator of ECMAScript, the code points removed by
    [String.prototype.trim]: TAB, LF, VT, FF, CR, SP, NBSP, U+1680,
    U+2000..U+200A, LS, PS, U+202F, U+205F, U+3000 and U+FEFF. *)
Definition is_ws (c : N) : bool :=
  existsb (N.eqb c)
    [9; 10; 11; 12; 13; 32; 160; 5760; 8232; 8233; 8239; 8287; 12288; 65279]
  || ((8192 <=? c) && (c <=? 8202)).

Fixpoint trimStart (s : jsstring) : jsstring :=
  match s with
  | [] => []
  | c :: s' => if is_ws c then trimStart s' else s
  end.

Definition trimEnd (s : jsstring) : jsstring :=
  reverse (trimStart (reverse s)).

Definition trim (s : jsstring) : jsstring := trimEnd (trimStart s).

(** A string is trimmed when neither its first nor its last code unit is
    white space. *)
Definition no_lead_ws (s : jsstring) : Prop :=
  ∀ c, head s = Some c → is_ws c = false.
Definition no_trail_ws (s : jsstring) : Prop :=
  ∀ c, last s = Some c → is_ws c = false.
Definition trimmed (s : jsstring) : Prop := no_lead_ws s ∧ no_trail_ws s.

Local Close Scope N_scope.

(** ** JavaScript values of a parsed JSON body *)

Inductive jsval :=
| VUndefined
| VNull
| VBool (b : bool)
| VNumber (n : Z)
| VString (s : jsstring)
| VObject.

(** [typeof v !== "string" || v.length < 1 || v.length > max], the guard of
    [POST /tx]. *)
Definition bad_field (v : jsval) (max : nat) : bool :=
  match v with
  | VString s => (length s <? 1)%nat || (max <? length s)%nat
  | _ => true
  end.

(** [typeof v === "string" && v.length > 0 && v.length <= max], the guard of
    [PUT /tx/:id]. *)
Definition good_field (v : jsval) (max : nat) : bool :=
  match v with
  | VString s => (0 <? length s)%nat && (length s <=? max)%nat
  | _ => false
  end.

(** [v.trim()], evaluated only where [v] is known to be a string. *)
Definition js_trim (v : jsval) : jsstring :=
  match v with
  | VString s => trim s
  | _ => []
  end.

(** ** Items and the document *)

Module Item.
Record t := mk { id : jsstring; name : jsstring; value : jsstring; time : Z }.

Definition set_name (n : jsstring) (i : t) : t :=
  {| id := id i; name := n; value := value i; time := time i |}.
Definition set_value (v : jsstring) (i : t) : t :=
  {| id := id i; name := name i; value := v; time := time i |}.
Definition set_time (m : Z) (i : t) : t :=
  {| id := id i; name := name i; value := value i; time := m |}.
End Item.

#[global] Instance Item_eq_dec : EqDecision Item.t.
Proof. solve_decision. Defined.

(** [db.data.items], also the content of [db.json]. *)
Abbreviation document := (list Item.t).

Definition ids (d : document) : list jsstring := Item.id <$> d.

(** ** Configuration read from the environment *)

Record config := {
  API_KEY : option jsstring;
  READONLY_API_KEY : option jsstring
}.

(** [!k] for a value that is a string or [undefined]. *)
Definition falsy (k : option jsstring) : bool :=
  match k with
  | None | Some [] => true
  | Some _ => false
  end.

Definition key_length (k : option jsstring) : nat :=
  match k with
  | Some s => length s
  | None => 0
  end.

(** [!API_KEY || API_KEY.length < 20]: the process exits. *)
Definition api_key_fatal (cfg : config) : bool :=
  falsy (API_KEY cfg) || (key_length (API_KEY cfg) <? 20)%nat.

(** [!READONLY_API_KEY || READONLY_API_KEY.length < 10]: the process logs
    "READONLY_API_KEY missing or short — read-only access disabled" and
    goes on. *)
Definition readonly_warned (cfg : config) : bool :=
  falsy (READONLY_API_KEY cfg) || (key_length (READONLY_API_KEY cfg) <? 10)%nat.

(** ** Requests and responses *)

Inductive role := Admin | Readonly.

(** A request as the JSON body parser hands it over: [req.body] is an object,
    a field it lacks reads as [undefined]. *)
Record request := {
  headers_x_api_key : option jsstring;
  params : jsstring;            (* [req.params.id] or [req.params.name] *)
  body_name : jsval;            (* [req.body.name] *)
  body_value : jsval;           (* [req.body.value] *)
  apiRole : option role
}.

Definition set_apiRole (r : role) (req : request) : request :=
  {| headers_x_api_key := headers_x_api_key req; params := params req;
     body_name := body_name req; body_value := body_value req;
     apiRole := Some r |}.

Inductive payload :=
| PStatus (msg : string)                 (* { status } *)
| PError (msg : string)                  (* { error } *)
| PItem (item : Item.t)                  (* { success: true, item } *)
| PRemoved (removed : Item.t)            (* { success: true, removed } *)
| PDeleted (deletedCount : nat)          (* { success: true, deletedCount } *)
| PItems (items : list Item.t).          (* the array itself *)

Record response := { status : nat; json : payload }.

(** What [crypto.randomUUID()] and [Date.now()] return during one request. *)
Record oracle := { randomUUID : jsstring; now : Z }.

(** ** The database and the handler monad *)

Inductive event :=
| DbRead (d : document)
| DbWrite (d : document)
| Send (r : response).

(** [db_data] is [db.data.items], [db_file] the items stored in [db.json],
    [trace] the reads, writes and responses so far, oldest first. File
    access is taken to succeed. *)
Record world := {
  db_data : document;
  db_file : document;
  trace : list event
}.

Definition M (A : Type) : Type := world → A * world.

#[global] Instance M_ret : MRet M := λ A x w, (x, w).
#[global] Instance M_bind : MBind M :=
  λ A B f m w, let '(x, w') := m w in f x w'.

(** [await db.read()] *)
Definition db_read : M () := λ w,
  ((), {| db_data := db_file w; db_file := db_file w;
          trace := trace w ++ [DbRead (db_file w)] |}).

(** [await db.write()] *)
Definition db_write : M () := λ w,
  ((), {| db_data := db_data w; db_file := db_data w;
          trace := trace w ++ [DbWrite (db_data w)] |}).

Definition get_items : M document := λ w, (db_data w, w).

Definition set_items (d : document) : M () := λ w,
  ((), {| db_data := d; db_file := db_file w; trace := trace w |}).

(** An assignment to a field of [item], the object found at [items[idx]]:
    the array holds the same object, so the element changes with it. *)
Definition assign (idx : nat) (item : Item.t) : M Item.t := λ w,
  (item, {| db_data := <[idx := item]> (db_data w); db_file := db_file w;
            trace := trace w |}).

(** [res.status(code).json(body)] *)
Definition res_status_json (code : nat) (body : payload) : M response := λ w,
  let r := {| status := code; json := body |} in
  (r, {| db_data := db_data w; db_file := db_file w;
         trace := trace w ++ [Send r] |}).

(** [res.json(body)] *)
Definition res_json (body : payload) : M response := res_status_json 200 body.

(** The start of the process: [db.read()], which keeps the default
    [{ items: [] }] when [db.json] does not exist yet, then
    [db.data ||= { items: [] }] and [db.write()]. *)
Definition boot (existing : option document) : world :=
  match existing with
  | Some d => {| db_data := d; db_file := d; trace := [DbRead d; DbWrite d] |}
  | None => {| db_data := []; db_file := []; trace := [DbWrite []] |}
  end.

(** ** Authentication *)

Definition requireReadKey (cfg : config) (req : request)
    (next : request → M response) : M response :=
  let key := headers_x_api_key req in
  if falsy key then res_status_json 401 (PError "API key required")
  else if bool_decide (key = API_KEY cfg) then next (set_apiRole Admin req)
  else if bool_decide (key = READONLY_API_KEY cfg)
       then next (set_apiRole Readonly req)
  else res_status_json 401 (PError "Unauthorized").

Definition requireAdminKey (cfg : config) (req : request)
    (next : request → M response) : M response :=
  let key := headers_x_api_key req in
  if falsy key || negb (bool_decide (key = API_KEY cfg))
  then res_status_json 401 (PError "Admin API key required")
  else next (set_apiRole Admin req).

(** ** Route handlers *)

Definition get_root (req : request) : M response :=
  res_json (PStatus "ok, standby").

Definition post_tx (req : request) (o : oracle) : M response :=
  let name := body_name req in
  let value := body_value req in
  if bad_field name 100 then res_status_json 400 (PError "Invalid name")
  else if bad_field value 500 then res_status_json 400 (PError "Invalid value")
  else
    let item := {| Item.id := randomUUID o; Item.name := js_trim name;
                   Item.value := js_trim value; Item.time := now o |} in
    items ← get_items;
    set_items (items ++ [item]);;
    db_write;;
    res_json (PItem item).

Definition get_rx (req : request) : M response :=
  db_read;;
  items ← get_items;
  res_json (PItems items).

Definition get_rx_name (req : request) : M response :=
  let name := params req in
  db_read;;
  items ← get_items;
  let results := filter (λ i, Item.name i = name) items in
  res_json (PItems results).

Definition put_tx_id (req : request) (o : oracle) : M response :=
  let id := params req in
  let name := body_name req in
  let value := body_value req in
  db_read;;
  items ← get_items;
  match list_find (λ i, Item.id i = id) items with
  | None => res_status_json 404 (PError "Item not found")
  | Some (idx, item) =>
      item ← (if good_field name 100
              then assign idx (Item.set_name (js_trim name) item)
              else mret item);
      item ← (if good_field value 500
              then assign idx (Item.set_value (js_trim value) item)
              else mret item);
      item ← assign idx (Item.set_time (now o) item);
      db_write;;
      res_json (PItem item)
  end.

Definition delete_tx_id (req : request) : M response :=
  let id := params req in
  db_read;;
  items ← get_items;
  match list_find (λ i, Item.id i = id) items with
  | None => res_status_json 404 (PError "Item not found")
  | Some (index, removed) =>
      set_items (delete index items);;
      db_write;;
      res_json (PRemoved removed)
  end.

Definition delete_tx (req : request) : M response :=
  db_read;;
  items ← get_items;
  let count := length items in
  set_items [];;
  db_write;;
  res_json (PDeleted count).

(** ** The route table *)

Inductive route :=
| GET_root          (* GET / *)
| POST_tx           (* POST /tx *)
| GET_rx            (* GET /rx *)
| GET_rx_name       (* GET /rx/:name *)
| PUT_tx_id         (* PUT /tx/:id *)
| DELETE_tx_id      (* DELETE /tx/:id *)
| DELETE_tx.        (* DELETE /tx *)

Inductive gate := NoKey | ReadKey | AdminKey.

(** The middleware each route is registered with. *)
Definition middleware (r : route) : gate :=
  match r with
  | GET_root => NoKey
  | POST_tx => AdminKey
  | GET_rx => ReadKey
  | GET_rx_name => ReadKey
  | PUT_tx_id => AdminKey
  | DELETE_tx_id => AdminKey
  | DELETE_tx => AdminKey
  end.

Definition handler (r : route) (o : oracle) (req : request) : M response :=
  match r with
  | GET_root => get_root req
  | POST_tx => post_tx req o
  | GET_rx => get_rx req
  | GET_rx_name => get_rx_name req
  | PUT_tx_id => put_tx_id req o
  | DELETE_tx_id => delete_tx_id req
  | DELETE_tx => delete_tx req
  end.

Definition guard (cfg : config) (g : gate) (req : request)
    (next : request → M response) : M response :=
  match g with
  | NoKey => next req
  | ReadKey => requireReadKey cfg req next
  | AdminKey => requireAdminKey cfg req next
  end.

(** One request served by the application. *)
Definition app (cfg : config) (r : route) (req : request) (o : oracle)
  : M response :=
  guard cfg (middleware r) req (handler r o).

(** The routes whose handler changes [db.data] and calls [db.write()], and
    those that only read. *)
Definition mutating (r : route) : bool :=
  match r with
  | POST_tx | PUT_tx_id | DELETE_tx_id | DELETE_tx => true
  | _ => false
  end.

Definition reading (r : route) : bool :=
  match r with
  | GET_rx | GET_rx_name => true
  | _ => false
  end.

(** ** Outcomes of a handler *)

Definition created (req : request) (o : oracle) : Item.t :=
  {| Item.id := randomUUID o; Item.name := js_trim (body_name req);
     Item.value := js_trim (body_value req); Item.time := now o |}.

Definition ok (body : payload) : response := {| status := 200; json := body |}.

Definition failed (code : nat) (msg : string) : response :=
  {| status := code; json := PError msg |}.

(** The world after a handler that left the database alone and answered [r]. *)
Definition answered (r : response) (w : world) : world :=
  {| db_data := db_data w; db_file := db_file w; trace := trace w ++ [Send r] |}.

(** The world after a handler that read the file, left [d] in memory and
    on disk, and answered [r]. *)
Definition rewritten (d : document) (r : response) (w : world) : world :=
  {| db_data := d; db_file := d;
     trace := trace w ++ [DbRead (db_file w); DbWrite d; Send r] |}.

(** The item [PUT /tx/:id] leaves in place of [item]. *)
Definition updated (req : request) (o : oracle) (item : Item.t) : Item.t :=
  {| Item.id := Item.id item;
     Item.name := if good_field (body_name req) 100
                  then js_trim (body_name req) else Item.name item;
     Item.value := if good_field (body_value req) 500
                   then js_trim (body_value req) else Item.value item;
     Item.time := now o |}.

(** ** Words of the specification *)

(** A body field is a string of 1 to [max] code units (raw length). *)
Definition text_in_bounds (v : jsval) (max : nat) : Prop :=
  ∃ s, v = VString s ∧ 1 ≤ length s ≤ max.

(** The request carries the admin secret. *)
Definition presents_admin (cfg : config) (req : request) : Prop :=
  falsy (headers_x_api_key req) = false ∧
  headers_x_api_key req = API_KEY cfg.

(** The in-memory copy and the file agree. *)
Definition coherent (w : world) : Prop := db_data w = db_file w.

(** The worlds the running server can be in. *)
Inductive reachable (cfg : config) : world → Prop :=
| reach_boot existing : reachable cfg (boot existing)
| reach_app w r req o :
    reachable cfg w → reachable cfg (app cfg r req o w).2.

(** The request carries a credential that the gate [g] does not accept. *)
Definition wrong_credential (cfg : config) (g : gate) (req : request) : Prop :=
  falsy (headers_x_api_key req) = false ∧
  headers_x_api_key req ≠ API_KEY cfg ∧
  (g = ReadKey → headers_x_api_key req ≠ READONLY_API_KEY cfg).

(** The request carries the read-only secret, which is not also the admin
    secret. *)
Definition presents_readonly (cfg : config) (req : request) : Prop :=
  falsy (headers_x_api_key req) = false ∧
  headers_x_api_key req = READONLY_API_KEY cfg ∧
  headers_x_api_key req ≠ API_KEY cfg.

(** A missing and a wrong credential get the same answer from gate [g]. *)
Definition same_rejection (cfg : config) (g : gate) : Prop :=
  ∀ missing wrong next w,
    falsy (headers_x_api_key missing) = true →
    wrong_credential cfg g wrong →
    (guard cfg g missing next w).1 = (guard cfg g wrong next w).1.

(** What does hold of a stored name and value: at most 100 and 500 code
    units, no white space at either end. *)
Definition stored_text (it : Item.t) : Prop :=
  length (Item.name it) ≤ 100 ∧ length (Item.value it) ≤ 500 ∧
  trimmed (Item.name it) ∧ trimmed (Item.value it).

(** ** Sample data *)

Module Sample.
Definition admin_key : jsstring := js "0123456789abcdefghij".
Definition readonly_key : jsstring := js "readonly-key".

Definition cfg : config :=
  {| API_KEY := Some admin_key; READONLY_API_KEY := Some readonly_key |}.

(** A read-only secret below the ten characters the start-up check asks. *)
Definition cfg_short : config :=
  {| API_KEY := Some admin_key; READONLY_API_KEY := Some (js "short") |}.

Definition req (key : option jsstring) (param : jsstring)
    (name value : jsval) : request :=
  {| headers_x_api_key := key; params := param; body_name := name;
     body_value := value; apiRole := None |}.

Definition host : Item.t :=
  {| Item.id := js "6f1c"; Item.name := js "host";
     Item.value := js "10.0.0.1"; Item.time := 1700000000000 |}.
Definition port : Item.t :=
  {| Item.id := js "9b2e"; Item.name := js "port";
     Item.value := js "3010"; Item.time := 1700000000500 |}.

Definition w2 : world := boot (Some [host; port]).

Definition o : oracle := {| randomUUID := js "c4d7"; now := 1700000001000 |}.
End Sample.

(** ** Sequences of requests *)

(** One request with what the generator and the clock return while it is
    served. *)
Record call := { call_route : route; call_req : request; call_oracle : oracle }.

Definition serve (cfg : config) (c : call) (w : world) : world :=
  (app cfg (call_route c) (call_req c) (call_oracle c) w).2.

(** The requests of [calls] served one after the other. *)
Fixpoint run (cfg : config) (calls : list call) (w : world) : world :=
  match calls with
  | [] => w
  | c :: calls' => run cfg calls' (serve cfg c w)
  end.

Definition uuids (calls : list call) : list jsstring :=
  (λ c, randomUUID (call_oracle c)) <$> calls.

(** ** Shapes of the world after a handler *)

Definition is_send (e : event) : bool :=
  match e with Send _ => true | _ => false end.

Definition is_write (e : event) : bool :=
  match e with DbWrite _ => true | _ => false end.

(** The world after a handler that read the file and answered [r]. *)
Definition loaded (r : response) (w : world) : world :=
  {| db_data := db_file w; db_file := db_file w;
     trace := trace w ++ [DbRead (db_file w); Send r] |}.

(** The world after [POST /tx] pushed [it], wrote and answered [r]. *)
Definition appended (it : Item.t) (r : response) (w : world) : world :=
  {| db_data := db_data w ++ [it]; db_file := db_data w ++ [it];
     trace := trace w ++ [DbWrite (db_data w ++ [it]); Send r] |}.

(** A string of white space only (the empty string included). *)
Definition blank (s : jsstring) : bool := forallb is_ws s.

(** The request carries a non-empty key equal to one of the two secrets. *)
Definition presents_reader (cfg : config) (req : request) : Prop :=
  falsy (headers_x_api_key req) = false ∧
  (headers_x_api_key req = API_KEY cfg ∨
   headers_x_api_key req = READONLY_API_KEY cfg).

(** * Properties *)

Section Trim.

Lemma trimStart_suffix s : ∃ p, s = p ++ trimStart s ∧ forallb is_ws p = true.
Proof.
  induction s as [|c s [p [Hs Hp]]]; simpl.
  - by exists [].
  - destruct (is_ws c) eqn:E.
    + exists (c :: p). simpl. rewrite E, Hp. split; [by f_equal | done].
    + by exists [].
Qed.

Lemma trimStart_length s : length (trimStart s) ≤ length s.
Proof.
  destruct (trimStart_suffix s) as [p [Hs _]].
  rewrite Hs at 2. rewrite length_app. lia.
Qed.

Lemma trimStart_head s : no_lead_ws (trimStart s).
Proof.
  induction s as [|c s IH]; intros d; simpl; [done|].
  destruct (is_ws c) eqn:E; [apply IH|].
  simpl. by intros [= <-].
Qed.

Lemma trimEnd_length s : length (trimEnd s) ≤ length s.
Proof.
  unfold trimEnd. rewrite length_reverse.
  etrans; [apply trimStart_length|]. by rewrite length_reverse.
Qed.

Lemma trimEnd_last s : no_trail_ws (trimEnd s).
Proof.
  intros c. unfold trimEnd. rewrite last_reverse. apply trimStart_head.
Qed.

(** Dropping white space at the end keeps the first code unit when one
    remains. *)
Lemma trimStart_rev_head s c :
  no_lead_ws s → head (reverse (trimStart (reverse s))) = Some c →
  head s = Some c.
Proof.
  intros _ H.
  destruct (trimStart_suffix (reverse s)) as [p [Hs _]].
  assert (s = reverse (trimStart (reverse s)) ++ reverse p) as Hs'.
  { rewrite <- reverse_app, <- Hs. by rewrite reverse_involutive. }
  rewrite Hs'. rewrite head_app. by rewrite H.
Qed.

Lemma trim_length s : length (trim s) ≤ length s.
Proof.
  unfold trim. etrans; [apply trimEnd_length | apply trimStart_length].
Qed.

Lemma trim_trimmed s : trimmed (trim s).
Proof.
  split; [|apply trimEnd_last].
  intros c Hc. unfold trim, trimEnd in Hc.
  apply trimStart_rev_head in Hc; [|apply trimStart_head].
  by apply (trimStart_head s).
Qed.

End Trim.

Section Fields.

Lemma bad_field_good_field v max : bad_field v max = negb (good_field v max).
Proof.
  destruct v as [| | | |s|]; simpl; try done.
  destruct (Nat.ltb_spec (length s) 1), (Nat.ltb_spec max (length s)),
    (Nat.ltb_spec 0 (length s)), (Nat.leb_spec (length s) max);
    simpl; try done; lia.
Qed.

Lemma good_field_spec v max :
  good_field v max = true ↔ text_in_bounds v max.
Proof.
  unfold text_in_bounds. split.
  - destruct v as [| | | |s|]; simpl; try done.
    intros [H1 H2]%andb_true_iff.
    apply Nat.ltb_lt in H1. apply Nat.leb_le in H2.
    exists s. split; [done|lia].
  - intros (s & -> & H1 & H2). simpl.
    apply andb_true_iff. split; [apply Nat.ltb_lt | apply Nat.leb_le]; lia.
Qed.

Lemma good_field_false v max :
  good_field v max = false ↔ ¬ text_in_bounds v max.
Proof.
  rewrite <- good_field_spec. by destruct (good_field v max).
Qed.

Lemma bad_field_spec v max :
  bad_field v max = true ↔ ¬ text_in_bounds v max.
Proof.
  rewrite bad_field_good_field, negb_true_iff. apply good_field_false.
Qed.

Lemma bad_field_false v max :
  bad_field v max = false ↔ text_in_bounds v max.
Proof.
  rewrite bad_field_good_field, negb_false_iff. apply good_field_spec.
Qed.

Lemma js_trim_length s : length (js_trim (VString s)) ≤ length s.
Proof. apply trim_length. Qed.

End Fields.

Section Gates.
Context (cfg : config).

Lemma requireAdminKey_pass req next :
  presents_admin cfg req →
  requireAdminKey cfg req next = next (set_apiRole Admin req).
Proof.
  intros [Hf Hk]. unfold requireAdminKey. rewrite Hf. simpl.
  by rewrite bool_decide_eq_true_2.
Qed.

Lemma requireAdminKey_reject req next :
  ¬ presents_admin cfg req →
  requireAdminKey cfg req next =
  res_status_json 401 (PError "Admin API key required").
Proof.
  intros Hn. unfold requireAdminKey.
  destruct (falsy (headers_x_api_key req)) eqn:Hf; [done|]. simpl.
  rewrite bool_decide_eq_false_2; [done|].
  intros Hk. by apply Hn.
Qed.

Lemma requireReadKey_missing req next :
  falsy (headers_x_api_key req) = true →
  requireReadKey cfg req next =
  res_status_json 401 (PError "API key required").
Proof. intros Hf. unfold requireReadKey. by rewrite Hf. Qed.

Lemma requireReadKey_admin req next :
  presents_admin cfg req →
  requireReadKey cfg req next = next (set_apiRole Admin req).
Proof.
  intros [Hf Hk]. unfold requireReadKey. rewrite Hf.
  by rewrite bool_decide_eq_true_2.
Qed.

Lemma requireReadKey_readonly req next :
  falsy (headers_x_api_key req) = false →
  headers_x_api_key req ≠ API_KEY cfg →
  headers_x_api_key req = READONLY_API_KEY cfg →
  requireReadKey cfg req next = next (set_apiRole Readonly req).
Proof.
  intros Hf Ha Hr. unfold requireReadKey. rewrite Hf.
  rewrite bool_decide_eq_false_2 by done.
  by rewrite bool_decide_eq_true_2.
Qed.

Lemma requireReadKey_wrong req next :
  falsy (headers_x_api_key req) = false →
  headers_x_api_key req ≠ API_KEY cfg →
  headers_x_api_key req ≠ READONLY_API_KEY cfg →
  requireReadKey cfg req next =
  res_status_json 401 (PError "Unauthorized").
Proof.
  intros Hf Ha Hr. unfold requireReadKey. rewrite Hf.
  by rewrite !bool_decide_eq_false_2.
Qed.

End Gates.

(** ** What each handler does to the database *)

(** Runs the monadic steps of a handler on the world of the goal. *)
Ltac run_handler :=
  repeat (unfold mbind, M_bind, mret, M_ret, get_items, set_items, db_read,
            db_write, assign, res_json, res_status_json; cbn).

Section Handlers.

Lemma res_status_json_run code body w :
  res_status_json code body w =
  ({| status := code; json := body |},
   answered {| status := code; json := body |} w).
Proof. done. Qed.

Lemma post_tx_valid req o w :
  bad_field (body_name req) 100 = false →
  bad_field (body_value req) 500 = false →
  post_tx req o w =
  (ok (PItem (created req o)),
   {| db_data := db_data w ++ [created req o];
      db_file := db_data w ++ [created req o];
      trace := trace w ++ [DbWrite (db_data w ++ [created req o]);
                           Send (ok (PItem (created req o)))] |}).
Proof.
  intros Hn Hv. unfold post_tx. rewrite Hn, Hv. run_handler.
  by rewrite <- app_assoc.
Qed.

Lemma post_tx_invalid req o w :
  bad_field (body_name req) 100 = true ∨
  bad_field (body_value req) 500 = true →
  ∃ msg, post_tx req o w = (failed 400 msg, answered (failed 400 msg) w).
Proof.
  intros H. unfold post_tx.
  destruct (bad_field (body_name req) 100) eqn:Hn.
  - by exists "Invalid name"%string.
  - destruct H as [H|H]; [done|]. rewrite H.
    by exists "Invalid value"%string.
Qed.

Lemma get_rx_run req w :
  get_rx req w =
  (ok (PItems (db_file w)),
   {| db_data := db_file w; db_file := db_file w;
      trace := trace w ++ [DbRead (db_file w);
                           Send (ok (PItems (db_file w)))] |}).
Proof. unfold get_rx. run_handler. by rewrite <- app_assoc. Qed.

Lemma get_rx_name_run req w :
  let results := filter (λ i, Item.name i = params req) (db_file w) in
  get_rx_name req w =
  (ok (PItems results),
   {| db_data := db_file w; db_file := db_file w;
      trace := trace w ++ [DbRead (db_file w); Send (ok (PItems results))] |}).
Proof. unfold get_rx_name. run_handler. by rewrite <- app_assoc. Qed.

Lemma put_tx_id_found req o w idx item :
  list_find (λ i, Item.id i = params req) (db_file w) = Some (idx, item) →
  put_tx_id req o w =
  (ok (PItem (updated req o item)),
   rewritten (<[idx := updated req o item]> (db_file w))
             (ok (PItem (updated req o item))) w).
Proof.
  intros Hfind. unfold put_tx_id. run_handler. rewrite Hfind. run_handler.
  unfold updated, rewritten.
  destruct (good_field (body_name req) 100),
           (good_field (body_value req) 500); run_handler;
    rewrite ?list_insert_insert_eq, <- ?app_assoc; cbn;
    by destruct item.
Qed.

Lemma put_tx_id_missing req o w :
  list_find (λ i, Item.id i = params req) (db_file w) = None →
  put_tx_id req o w =
  (failed 404 "Item not found",
   {| db_data := db_file w; db_file := db_file w;
      trace := trace w ++ [DbRead (db_file w);
                           Send (failed 404 "Item not found")] |}).
Proof.
  intros Hfind. unfold put_tx_id. run_handler. rewrite Hfind. run_handler.
  by rewrite <- app_assoc.
Qed.

Lemma delete_tx_id_found req w index removed :
  list_find (λ i, Item.id i = params req) (db_file w) = Some (index, removed) →
  delete_tx_id req w =
  (ok (PRemoved removed),
   rewritten (delete index (db_file w)) (ok (PRemoved removed)) w).
Proof.
  intros Hfind. unfold delete_tx_id. run_handler. rewrite Hfind. run_handler.
  unfold rewritten. by rewrite <- !app_assoc.
Qed.

Lemma delete_tx_id_missing req w :
  list_find (λ i, Item.id i = params req) (db_file w) = None →
  delete_tx_id req w =
  (failed 404 "Item not found",
   {| db_data := db_file w; db_file := db_file w;
      trace := trace w ++ [DbRead (db_file w);
                           Send (failed 404 "Item not found")] |}).
Proof.
  intros Hfind. unfold delete_tx_id. run_handler. rewrite Hfind. run_handler.
  by rewrite <- app_assoc.
Qed.

Lemma delete_tx_run req w :
  delete_tx req w =
  (ok (PDeleted (length (db_file w))),
   rewritten [] (ok (PDeleted (length (db_file w)))) w).
Proof.
  unfold delete_tx, rewritten. run_handler. by rewrite <- !app_assoc.
Qed.

End Handlers.

(** ** Items found by id *)

Section Ids.
Implicit Types (d : document) (it : Item.t) (k : jsstring).

(** [find] and [findIndex] stop at the first item with the id; with
    distinct ids that is the only one. *)
Lemma find_by_id d i it :
  NoDup (ids d) → d !! i = Some it →
  list_find (λ x, Item.id x = Item.id it) d = Some (i, it).
Proof.
  intros Hnd Hi. apply list_find_Some. repeat split; [done..|].
  intros j y Hj Hlt Heq.
  assert (j = i); [|lia].
  apply (NoDup_lookup (ids d) j i (Item.id it)); [done|..];
    unfold ids; rewrite list_lookup_fmap.
  - by rewrite Hj, <- Heq.
  - by rewrite Hi.
Qed.

Lemma find_by_id_absent d k :
  k ∉ ids d → list_find (λ x, Item.id x = k) d = None.
Proof.
  intros Hk. apply list_find_None, Forall_forall. intros x Hx Heq.
  apply Hk. unfold ids. apply list_elem_of_fmap. by exists x.
Qed.

Lemma find_by_id_inv d k i it :
  list_find (λ x, Item.id x = k) d = Some (i, it) →
  d !! i = Some it ∧ Item.id it = k.
Proof. intros (? & ? & _)%list_find_Some. done. Qed.

Lemma ids_snoc d it : ids (d ++ [it]) = ids d ++ [Item.id it].
Proof. unfold ids. by rewrite fmap_app. Qed.

Lemma ids_insert d i it it' :
  d !! i = Some it → Item.id it' = Item.id it → ids (<[i:=it']> d) = ids d.
Proof.
  intros Hi Hid. unfold ids. rewrite list_fmap_insert, Hid.
  apply list_insert_id. by rewrite list_lookup_fmap, Hi.
Qed.

Lemma ids_delete_NoDup d i : NoDup (ids d) → NoDup (ids (delete i d)).
Proof.
  intros Hnd. unfold ids. rewrite list_fmap_delete.
  eapply sublist_NoDup; [done | apply sublist_delete].
Qed.

(** Once removed, an id that was unique is gone. *)
Lemma ids_delete_gone d i it :
  NoDup (ids d) → d !! i = Some it → Item.id it ∉ ids (delete i d).
Proof.
  intros Hnd Hi.
  rewrite <- (take_drop_middle d i it Hi) in Hnd.
  rewrite delete_take_drop. unfold ids in *.
  rewrite fmap_app in *. rewrite fmap_cons in Hnd.
  apply NoDup_app in Hnd as (_ & Hl & Hr).
  apply NoDup_cons in Hr as [Hr _].
  intros [H|H]%elem_of_app; [|done].
  apply (Hl _ H). apply list_elem_of_here.
Qed.

End Ids.

(** ** Invariants of the running server *)

Section Invariants.
Context (cfg : config).

(** Either the gate lets the request through, with a role set, or it
    answers 401 and the handler never runs. *)
Lemma guard_cases g req next :
  (∃ req', guard cfg g req next = next req' ∧
           params req' = params req ∧ body_name req' = body_name req ∧
           body_value req' = body_value req) ∨
  (∃ msg, guard cfg g req next = res_status_json 401 (PError msg)).
Proof.
  destruct g; simpl.
  - left. by exists req.
  - unfold requireReadKey.
    destruct (falsy _); [right; eauto|].
    destruct (bool_decide _); [left; by eexists|].
    destruct (bool_decide _); [left; by eexists|right; eauto].
  - unfold requireAdminKey.
    destruct (_ || _); [right; eauto|left; by eexists].
Qed.

Lemma handler_coherent r o req w :
  coherent w → coherent (handler r o req w).2.
Proof.
  intros Hc. destruct r; cbn [handler].
  - done.
  - unfold post_tx.
    destruct (bad_field (body_name req) 100); [done|].
    destruct (bad_field (body_value req) 500); done.
  - by rewrite get_rx_run.
  - by rewrite get_rx_name_run.
  - destruct (list_find (λ i, Item.id i = params req) (db_file w))
      as [[idx item]|] eqn:Hfind.
    + by rewrite (put_tx_id_found _ _ _ _ _ Hfind).
    + by rewrite (put_tx_id_missing _ _ _ Hfind).
  - destruct (list_find (λ i, Item.id i = params req) (db_file w))
      as [[idx item]|] eqn:Hfind.
    + by rewrite (delete_tx_id_found _ _ _ _ Hfind).
    + by rewrite (delete_tx_id_missing _ _ Hfind).
  - by rewrite delete_tx_run.
Qed.

Lemma app_coherent r req o w :
  coherent w → coherent (app cfg r req o w).2.
Proof.
  intros Hc. unfold app.
  destruct (guard_cases (middleware r) req (handler r o))
    as [(req' & -> & _)|(msg & ->)]; [|done].
  by apply handler_coherent.
Qed.

Lemma reachable_coherent w : reachable cfg w → coherent w.
Proof.
  induction 1 as [existing|w r req o _ IH].
  - by destruct existing.
  - by apply app_coherent.
Qed.

(** Ids stay distinct as long as [crypto.randomUUID()] does not return
    an id already in the document. *)
Lemma handler_unique_ids r o req w :
  coherent w → NoDup (ids (db_file w)) →
  randomUUID o ∉ ids (db_file w) →
  NoDup (ids (db_file (handler r o req w).2)).
Proof.
  intros Hc Hnd Hfresh. destruct r; cbn [handler].
  - done.
  - unfold post_tx.
    destruct (bad_field (body_name req) 100); [done|].
    destruct (bad_field (body_value req) 500); [done|].
    run_handler. rewrite Hc, ids_snoc.
    apply NoDup_app. split_and!; [done| |apply NoDup_singleton].
    intros x Hx ->%list_elem_of_singleton. done.
  - by rewrite get_rx_run.
  - by rewrite get_rx_name_run.
  - destruct (list_find (λ i, Item.id i = params req) (db_file w))
      as [[idx item]|] eqn:Hfind.
    + rewrite (put_tx_id_found _ _ _ _ _ Hfind). simpl.
      apply find_by_id_inv in Hfind as [Hi _].
      by rewrite (ids_insert _ _ item).
    + by rewrite (put_tx_id_missing _ _ _ Hfind).
  - destruct (list_find (λ i, Item.id i = params req) (db_file w))
      as [[idx item]|] eqn:Hfind.
    + rewrite (delete_tx_id_found _ _ _ _ Hfind). simpl.
      by apply ids_delete_NoDup.
    + by rewrite (delete_tx_id_missing _ _ Hfind).
  - rewrite delete_tx_run. simpl. apply NoDup_nil_2.
Qed.

Lemma app_unique_ids r req o w :
  coherent w → NoDup (ids (db_file w)) →
  randomUUID o ∉ ids (db_file w) →
  NoDup (ids (db_file (app cfg r req o w).2)).
Proof.
  intros Hc Hnd Hfresh. unfold app.
  destruct (guard_cases (middleware r) req (handler r o))
    as [(req' & -> & _)|(msg & ->)]; [|done].
  by apply handler_unique_ids.
Qed.

End Invariants.

(** ** The two gates *)

Section Authorization.
Context (cfg : config).

(** Without a usable read-only secret ([undefined] or empty), the read gate
    lets a request through only on the admin secret. *)
Lemma read_gate_without_readonly req next w :
  falsy (READONLY_API_KEY cfg) = true →
  ¬ presents_admin cfg req →
  ∃ msg, requireReadKey cfg req next w =
         (failed 401 msg, answered (failed 401 msg) w).
Proof.
  intros Hro Hna. unfold requireReadKey.
  destruct (falsy (headers_x_api_key req)) eqn:Hf; [by eexists|].
  rewrite bool_decide_eq_false_2; [|intros Hk; by apply Hna].
  rewrite bool_decide_eq_false_2; [by eexists|].
  intros Hk. rewrite <- Hk in Hro. congruence.
Qed.

Lemma mutating_admin_gate r : mutating r = true → middleware r = AdminKey.
Proof. by destruct r. Qed.

Lemma reading_read_gate r : reading r = true → middleware r = ReadKey.
Proof. by destruct r. Qed.

(** A mutating route leaves the database alone unless the request carries
    the admin secret. *)
Lemma mutating_needs_admin r req o w :
  mutating r = true → ¬ presents_admin cfg req →
  app cfg r req o w =
  (failed 401 "Admin API key required",
   answered (failed 401 "Admin API key required") w).
Proof.
  intros Hm Hna. unfold app. rewrite (mutating_admin_gate r Hm). simpl.
  by rewrite requireAdminKey_reject.
Qed.

Lemma reading_status r o req w :
  reading r = true → status (handler r o req w).1 = 200.
Proof. by destruct r. Qed.

End Authorization.

(** C2, on the code: with a read-only secret shorter than ten characters
    the server starts, logs that read-only access is disabled, and still
    lets a request that presents that secret through the read gate, with
    role [readonly]. *)
Theorem C2_short_readonly_secret_accepted :
  let req := Sample.req (Some (js "short")) [] VUndefined VUndefined in
  api_key_fatal Sample.cfg_short = false ∧
  readonly_warned Sample.cfg_short = true ∧
  ¬ presents_admin Sample.cfg_short req ∧
  app Sample.cfg_short GET_rx req Sample.o =
  get_rx (set_apiRole Readonly req) ∧
  (app Sample.cfg_short GET_rx req Sample.o Sample.w2).1 =
  ok (PItems [Sample.host; Sample.port]).
Proof.
  split_and!; [done|done| |done|done].
  intros [_ Hk]. discriminate Hk.
Qed.

(** C3, as stated, fails on the read gate: a request without a key is told
    "API key required", one with a wrong key "Unauthorized". *)
Lemma C3_read_gate_distinguishes :
  let missing := Sample.req None [] VUndefined VUndefined in
  let wrong := Sample.req (Some (js "wrong-key")) [] VUndefined VUndefined in
  falsy (headers_x_api_key missing) = true ∧
  wrong_credential Sample.cfg ReadKey wrong ∧
  (app Sample.cfg GET_rx missing Sample.o Sample.w2).1 =
  failed 401 "API key required" ∧
  (app Sample.cfg GET_rx wrong Sample.o Sample.w2).1 =
  failed 401 "Unauthorized" ∧
  ¬ same_rejection Sample.cfg ReadKey.
Proof.
  intros missing wrong.
  assert (wrong_credential Sample.cfg ReadKey wrong) as Hw.
  { split_and!; [done|intros Hk; discriminate Hk|intros _ Hk; discriminate Hk]. }
  split_and!; [done..|].
  intros H. specialize (H missing wrong get_rx Sample.w2 eq_refl Hw).
  discriminate H.
Qed.

(** C3, amended: on a gated route a missing and a wrong credential are both
    answered 401 with an error message and the database is left alone; the
    admin gate gives both the same message, the read gate tells them apart
    ("API key required" and "Unauthorized"). *)
Theorem C3_denied_with_401 cfg r missing wrong o w :
  middleware r ≠ NoKey →
  falsy (headers_x_api_key missing) = true →
  wrong_credential cfg (middleware r) wrong →
  ∃ m1 m2,
    app cfg r missing o w = (failed 401 m1, answered (failed 401 m1) w) ∧
    app cfg r wrong o w = (failed 401 m2, answered (failed 401 m2) w) ∧
    (middleware r = AdminKey →
       m1 = "Admin API key required"%string ∧ m2 = m1) ∧
    (middleware r = ReadKey →
       m1 = "API key required"%string ∧ m2 = "Unauthorized"%string).
Proof.
  intros Hg Hmiss (Hf & Ha & Hr). unfold app.
  destruct (middleware r) eqn:Hm; [done|..]; simpl.
  - rewrite (requireReadKey_missing _ _ _ Hmiss).
    rewrite (requireReadKey_wrong _ _ _ Hf Ha (Hr eq_refl)).
    eexists _, _. split_and!; [done|done|done|done].
  - rewrite !requireAdminKey_reject.
    + eexists _, _. split_and!; [done|done|done|done].
    + intros [_ Hk]. done.
    + intros [Hf' _]. congruence.
Qed.

Lemma C3_denied_with_401_witness :
  middleware GET_rx ≠ NoKey ∧
  status (app Sample.cfg GET_rx
            (Sample.req None [] VUndefined VUndefined) Sample.o Sample.w2).1
  = 401.
Proof.
  split; [done|].
  destruct (C3_denied_with_401 Sample.cfg GET_rx
              (Sample.req None [] VUndefined VUndefined)
              (Sample.req (Some (js "wrong-key")) [] VUndefined VUndefined)
              Sample.o Sample.w2) as (m1 & m2 & H1 & _).
  - done.
  - reflexivity.
  - split_and!; [reflexivity|intros Hk; discriminate Hk
                |intros _ Hk; discriminate Hk].
  - by rewrite H1.
Defined.




(** ** Create, update, delete *)

Section Served.
Context (cfg : config).

Lemma served_to_admin r req o :
  presents_admin cfg req →
  app cfg r req o = handler r o
    (match middleware r with NoKey => req | _ => set_apiRole Admin req end).
Proof.
  intros Ha. unfold app. destruct (middleware r); simpl.
  - done.
  - by apply requireReadKey_admin.
  - by apply requireAdminKey_pass.
Qed.

(** [GET /rx] for a reader: the items of the file, in order. *)
Lemma listAll_served req o w :
  presents_admin cfg req ∨ presents_readonly cfg req →
  (app cfg GET_rx req o w).1 = ok (PItems (db_file w)).
Proof.
  intros [Ha|(Hf & Hro & Hna)].
  - by rewrite served_to_admin.
  - unfold app. simpl. by rewrite requireReadKey_readonly.
Qed.

End Served.

(** C4, as stated, fails where it promises an id distinct from every
    existing id: [POST /tx] stores whatever [crypto.randomUUID()] returns
    and never looks at the ids already in the document. When the generator
    returns the id of an item of the document the request is still answered
    200 and the document then holds that id twice. *)
Lemma C4_colliding_id_accepted :
  let req := Sample.req (Some Sample.admin_key) []
               (VString (js "mode")) (VString (js "fast")) in
  let o := {| randomUUID := js "6f1c"; now := 1700000001000 |} in
  let item := {| Item.id := js "6f1c"; Item.name := js "mode";
                 Item.value := js "fast"; Item.time := 1700000001000 |} in
  presents_admin Sample.cfg req ∧
  text_in_bounds (body_name req) 100 ∧
  text_in_bounds (body_value req) 500 ∧
  coherent Sample.w2 ∧
  (app Sample.cfg POST_tx req o Sample.w2).1 = ok (PItem item) ∧
  Item.id item ∈ ids (db_file Sample.w2) ∧
  ids (db_file (app Sample.cfg POST_tx req o Sample.w2).2) =
  [js "6f1c"; js "9b2e"; js "6f1c"] ∧
  ¬ NoDup (ids (db_file (app Sample.cfg POST_tx req o Sample.w2).2)).
Proof.
  intros req o item. split_and!.
  - split; reflexivity.
  - exists (js "mode"). split; [reflexivity|simpl; lia].
  - exists (js "fast"). split; [reflexivity|simpl; lia].
  - reflexivity.
  - reflexivity.
  - apply list_elem_of_here.
  - reflexivity.
  - intros H. apply NoDup_cons in H as [H _]. apply H.
    apply list_elem_of_further, list_elem_of_here.
Qed.

(** C4, amended: for a name of raw length 1 to 100 and a value of raw
    length 1 to 500, [POST /tx] with the admin secret answers 200 with a new
    item made of the value returned by [crypto.randomUUID()] as id, the
    trimmed name and value and the current time; the item is appended at
    the end, the whole document is written before the answer, and
    [GET /rx], which showed the prior items before, shows them followed by
    the new item. The handler does not compare the id with the existing
    ones: in a document with distinct ids the new id is distinct from them,
    and the ids stay distinct, exactly when the generator has not returned
    an id already in the document. *)
Theorem C4_create_appends_generated_id cfg req o w n v :
  presents_admin cfg req →
  body_name req = VString n → body_value req = VString v →
  1 ≤ length n ≤ 100 → 1 ≤ length v ≤ 500 →
  coherent w →
  let item := {| Item.id := randomUUID o; Item.name := trim n;
                 Item.value := trim v; Item.time := now o |} in
  let w' := (app cfg POST_tx req o w).2 in
  (app cfg POST_tx req o w).1 = ok (PItem item) ∧
  db_file w' = db_file w ++ [item] ∧
  db_data w' = db_file w' ∧
  trace w' = trace w ++ [DbWrite (db_file w ++ [item]); Send (ok (PItem item))] ∧
  (∀ req' o', presents_admin cfg req' ∨ presents_readonly cfg req' →
     (app cfg GET_rx req' o' w).1 = ok (PItems (db_file w)) ∧
     (app cfg GET_rx req' o' w').1 = ok (PItems (db_file w ++ [item]))) ∧
  (NoDup (ids (db_file w)) →
     NoDup (ids (db_file w')) ↔ randomUUID o ∉ ids (db_file w)).
Proof.
  intros Ha Hn Hv Hln Hlv Hc item w'.
  assert (app cfg POST_tx req o w =
          (ok (PItem item),
           {| db_data := db_file w ++ [item]; db_file := db_file w ++ [item];
              trace := trace w ++ [DbWrite (db_file w ++ [item]);
                                   Send (ok (PItem item))] |})) as Hrun.
  { rewrite served_to_admin by done. cbn [handler middleware].
    rewrite post_tx_valid.
    - unfold created. cbn [body_name body_value set_apiRole].
      rewrite Hn, Hv, Hc. done.
    - apply bad_field_false. exists n. by rewrite <- Hn.
    - apply bad_field_false. exists v. by rewrite <- Hv. }
  subst w'. rewrite Hrun. cbn [fst snd db_file db_data trace].
  split_and!; try done.
  - intros req' o' Hr. by rewrite !listAll_served.
  - intros Hnd. rewrite ids_snoc. cbn [Item.id item]. split.
    + intros (_ & Hdis & _)%NoDup_app Hin.
      apply (Hdis _ Hin), list_elem_of_here.
    + intros Hfresh. apply NoDup_app. split_and!; [done| |apply NoDup_singleton].
      intros x Hx ->%list_elem_of_singleton. done.
Qed.

Lemma C4_create_appends_generated_id_witness :
  let req := Sample.req (Some Sample.admin_key) []
               (VString (js " mode ")) (VString (js "fast")) in
  presents_admin Sample.cfg req ∧
  db_file (app Sample.cfg POST_tx req Sample.o Sample.w2).2 =
  [Sample.host; Sample.port;
   {| Item.id := js "c4d7"; Item.name := js "mode"; Item.value := js "fast";
      Item.time := 1700000001000 |}].
Proof.
  intros req.
  assert (presents_admin Sample.cfg req) as Ha by (split; reflexivity).
  split; [exact Ha|].
  destruct (C4_create_appends_generated_id Sample.cfg req Sample.o Sample.w2
              (js " mode ") (js "fast")) as (_ & Hfile & _).
  - exact Ha.
  - reflexivity.
  - reflexivity.
  - simpl. lia.
  - simpl. lia.
  - reflexivity.
  - rewrite Hfile. reflexivity.
Defined.

(** C5: when the name is missing, not a string, empty or longer than 100,
    or the value missing, not a string, empty or longer than 500,
    [POST /tx] answers 400 with an error message and neither the in-memory
    items nor the file change. *)
Theorem C5_create_rejects_invalid cfg req o w :
  presents_admin cfg req →
  (¬ text_in_bounds (body_name req) 100) ∨
  (¬ text_in_bounds (body_value req) 500) →
  ∃ msg,
    (app cfg POST_tx req o w).1 = failed 400 msg ∧
    db_file (app cfg POST_tx req o w).2 = db_file w ∧
    db_data (app cfg POST_tx req o w).2 = db_data w ∧
    trace (app cfg POST_tx req o w).2 = trace w ++ [Send (failed 400 msg)].
Proof.
  intros Ha Hbad. rewrite served_to_admin by done. cbn [handler middleware].
  destruct (post_tx_invalid (set_apiRole Admin req) o w) as [msg ->].
  - cbn [body_name body_value set_apiRole].
    destruct Hbad as [H|H]; [left|right]; by apply bad_field_spec.
  - by exists msg.
Qed.

Lemma C5_create_rejects_invalid_witness :
  let req := Sample.req (Some Sample.admin_key) []
               (VString []) (VString (js "fast")) in
  presents_admin Sample.cfg req ∧
  (app Sample.cfg POST_tx req Sample.o Sample.w2).1 = failed 400 "Invalid name" ∧
  db_file (app Sample.cfg POST_tx req Sample.o Sample.w2).2 =
  [Sample.host; Sample.port].
Proof.
  intros req.
  assert (presents_admin Sample.cfg req) as Ha by (split; reflexivity).
  split; [exact Ha|].
  destruct (C5_create_rejects_invalid Sample.cfg req Sample.o Sample.w2)
    as (msg & _ & Hfile & _).
  - exact Ha.
  - left. intros (s & Hs & Hlen & _). injection Hs as <-. simpl in Hlen. lia.
  - split; [reflexivity|]. rewrite Hfile. reflexivity.
Defined.

Section Update.
Context (cfg : config).

(** [PUT /tx/:id] on the id of an item of a document with distinct ids. *)
Lemma update_served req o w i it :
  presents_admin cfg req →
  NoDup (ids (db_file w)) →
  db_file w !! i = Some it →
  params req = Item.id it →
  app cfg PUT_tx_id req o w =
  (ok (PItem (updated req o it)),
   rewritten (<[i := updated req o it]> (db_file w))
             (ok (PItem (updated req o it))) w).
Proof.
  intros Ha Hnd Hi Hid. rewrite served_to_admin by done.
  cbn [handler middleware].
  by rewrite (put_tx_id_found _ o w i it);
    cbn [params set_apiRole]; [|rewrite Hid; apply find_by_id].
Qed.

Lemma update_unknown_id req o w :
  presents_admin cfg req →
  params req ∉ ids (db_file w) →
  (app cfg PUT_tx_id req o w).1 = failed 404 "Item not found" ∧
  db_file (app cfg PUT_tx_id req o w).2 = db_file w.
Proof.
  intros Ha Hid. rewrite served_to_admin by done. cbn [handler middleware].
  rewrite put_tx_id_missing; [done|].
  cbn [params set_apiRole]. by apply find_by_id_absent.
Qed.

End Update.

(** C6: [PUT /tx/:id] with the admin secret, on the id of an item of the
    document, answers 200 with the updated item and writes the document
    with that item replaced in place. A name that is a string of raw length
    1 to 100 replaces the name (trimmed); any other name, or none, leaves
    the name as it was and is not an error; likewise for the value with
    bound 500; a body with only a name leaves the value unchanged; the time
    becomes the current time and the id stays. *)
Theorem C6_update_lenient cfg req o w i it :
  presents_admin cfg req →
  NoDup (ids (db_file w)) →
  db_file w !! i = Some it →
  params req = Item.id it →
  ∃ it',
    app cfg PUT_tx_id req o w =
    (ok (PItem it'), rewritten (<[i := it']> (db_file w)) (ok (PItem it')) w) ∧
    Item.id it' = Item.id it ∧
    Item.time it' = now o ∧
    (∀ s, body_name req = VString s → 1 ≤ length s ≤ 100 →
          Item.name it' = trim s) ∧
    (¬ text_in_bounds (body_name req) 100 → Item.name it' = Item.name it) ∧
    (∀ s, body_value req = VString s → 1 ≤ length s ≤ 500 →
          Item.value it' = trim s) ∧
    (¬ text_in_bounds (body_value req) 500 → Item.value it' = Item.value it) ∧
    (body_value req = VUndefined → Item.value it' = Item.value it).
Proof.
  intros Ha Hnd Hi Hid. exists (updated req o it).
  split; [by apply update_served|].
  unfold updated. cbn [Item.id Item.name Item.value Item.time].
  split_and!; try done.
  - intros s Hs Hlen.
    assert (good_field (body_name req) 100 = true) as ->.
    { apply good_field_spec. by exists s. }
    by rewrite Hs.
  - intros Hbad. by apply good_field_false in Hbad as ->.
  - intros s Hs Hlen.
    assert (good_field (body_value req) 500 = true) as ->.
    { apply good_field_spec. by exists s. }
    by rewrite Hs.
  - intros Hbad. by apply good_field_false in Hbad as ->.
  - by intros ->.
Qed.

Lemma C6_update_lenient_witness :
  let req := Sample.req (Some Sample.admin_key) (js "9b2e")
               (VString (js " listen ")) VUndefined in
  presents_admin Sample.cfg req ∧
  NoDup (ids (db_file Sample.w2)) ∧
  db_file (app Sample.cfg PUT_tx_id req Sample.o Sample.w2).2 =
  [Sample.host;
   {| Item.id := js "9b2e"; Item.name := js "listen"; Item.value := js "3010";
      Item.time := 1700000001000 |}].
Proof.
  intros req.
  assert (presents_admin Sample.cfg req) as Ha by (split; reflexivity).
  assert (NoDup (ids (db_file Sample.w2))) as Hnd.
  { apply NoDup_ListNoDup. repeat constructor; simpl; intros H;
      repeat (destruct H as [H|H]; [discriminate H|]); exact H. }
  split_and!; [exact Ha|exact Hnd|].
  destruct (C6_update_lenient Sample.cfg req Sample.o Sample.w2 1 Sample.port)
    as (it' & Hrun & Hid & Htime & Hname & _ & _ & _ & Hvalue).
  - exact Ha.
  - exact Hnd.
  - reflexivity.
  - reflexivity.
  - rewrite Hrun. cbn [snd rewritten db_file].
    specialize (Hname (js " listen ") eq_refl).
    specialize (Hvalue eq_refl).
    destruct it' as [a b c d].
    cbn [Item.id Item.name Item.value Item.time] in Hid, Htime, Hname, Hvalue.
    rewrite Hid, Htime, Hvalue, Hname by (simpl; lia).
    reflexivity.
Defined.

(** C10: [PUT /tx/:id] with the admin secret, on the id of an item of the
    document, with a body that has no usable name and no usable value (an
    empty body, for one), answers 200 with the item, its name and value as
    they were and its time set to the current time, after reading the file
    and writing the whole document back. *)
Theorem C10_update_without_fields cfg req o w i it :
  presents_admin cfg req →
  NoDup (ids (db_file w)) →
  db_file w !! i = Some it →
  params req = Item.id it →
  ¬ text_in_bounds (body_name req) 100 →
  ¬ text_in_bounds (body_value req) 500 →
  let it' := {| Item.id := Item.id it; Item.name := Item.name it;
                Item.value := Item.value it; Item.time := now o |} in
  (app cfg PUT_tx_id req o w).1 = ok (PItem it') ∧
  db_file (app cfg PUT_tx_id req o w).2 = <[i := it']> (db_file w) ∧
  db_data (app cfg PUT_tx_id req o w).2 = <[i := it']> (db_file w) ∧
  trace (app cfg PUT_tx_id req o w).2 =
  trace w ++ [DbRead (db_file w); DbWrite (<[i := it']> (db_file w));
              Send (ok (PItem it'))].
Proof.
  intros Ha Hnd Hi Hid Hn Hv it'.
  rewrite (update_served cfg req o w i it) by done.
  assert (updated req o it = it') as ->; [|done].
  unfold updated.
  by apply good_field_false in Hn as ->; apply good_field_false in Hv as ->.
Qed.

Lemma C10_update_without_fields_witness :
  let req := Sample.req (Some Sample.admin_key) (js "6f1c")
               VUndefined VUndefined in
  presents_admin Sample.cfg req ∧
  db_file (app Sample.cfg PUT_tx_id req Sample.o Sample.w2).2 =
  [{| Item.id := js "6f1c"; Item.name := js "host";
      Item.value := js "10.0.0.1"; Item.time := 1700000001000 |};
   Sample.port].
Proof.
  intros req.
  assert (presents_admin Sample.cfg req) as Ha by (split; reflexivity).
  split; [exact Ha|].
  destruct (C10_update_without_fields Sample.cfg req Sample.o Sample.w2
              0 Sample.host) as (_ & Hfile & _).
  - exact Ha.
  - apply NoDup_ListNoDup. repeat constructor; simpl; intros H;
      repeat (destruct H as [H|H]; [discriminate H|]); exact H.
  - reflexivity.
  - reflexivity.
  - intros (s & Hs & _). discriminate Hs.
  - intros (s & Hs & _). discriminate Hs.
  - rewrite Hfile. reflexivity.
Defined.

(** C7: [DELETE /tx/:id] with the admin secret, on the id of an item of the
    document, answers 200 with that item and writes the document without it,
    the other items as they were; the same request again is answered 404
    "Item not found" and leaves the document as the first one left it. *)
Theorem C7_delete_then_not_found cfg req o o' w i it :
  presents_admin cfg req →
  NoDup (ids (db_file w)) →
  db_file w !! i = Some it →
  params req = Item.id it →
  let w1 := (app cfg DELETE_tx_id req o w).2 in
  let w2 := (app cfg DELETE_tx_id req o' w1).2 in
  app cfg DELETE_tx_id req o w =
  (ok (PRemoved it), rewritten (delete i (db_file w)) (ok (PRemoved it)) w) ∧
  (app cfg DELETE_tx_id req o' w1).1 = failed 404 "Item not found" ∧
  db_file w2 = delete i (db_file w) ∧
  db_data w2 = delete i (db_file w).
Proof.
  intros Ha Hnd Hi Hid w1 w2.
  assert (app cfg DELETE_tx_id req o w =
          (ok (PRemoved it),
           rewritten (delete i (db_file w)) (ok (PRemoved it)) w)) as Hfirst.
  { rewrite served_to_admin by done. cbn [handler middleware].
    apply delete_tx_id_found. cbn [params set_apiRole]. rewrite Hid.
    by apply find_by_id. }
  split; [done|].
  subst w2 w1. rewrite Hfirst. cbn [snd].
  rewrite served_to_admin by done. cbn [handler middleware].
  rewrite delete_tx_id_missing; [done|].
  cbn [params set_apiRole rewritten db_file]. rewrite Hid.
  apply find_by_id_absent. by apply ids_delete_gone.
Qed.

Lemma C7_delete_then_not_found_witness :
  let req := Sample.req (Some Sample.admin_key) (js "6f1c")
               VUndefined VUndefined in
  let w1 := (app Sample.cfg DELETE_tx_id req Sample.o Sample.w2).2 in
  presents_admin Sample.cfg req ∧
  db_file w1 = [Sample.port] ∧
  (app Sample.cfg DELETE_tx_id req Sample.o w1).1 = failed 404 "Item not found".
Proof.
  intros req w1.
  assert (presents_admin Sample.cfg req) as Ha by (split; reflexivity).
  split; [exact Ha|].
  destruct (C7_delete_then_not_found Sample.cfg req Sample.o Sample.o
              Sample.w2 0 Sample.host) as (Hfirst & Hsecond & _).
  - exact Ha.
  - apply NoDup_ListNoDup. repeat constructor; simpl; intros H;
      repeat (destruct H as [H|H]; [discriminate H|]); exact H.
  - reflexivity.
  - reflexivity.
  - split; [|exact Hsecond].
    subst w1. rewrite Hfirst. reflexivity.
Defined.



(** ** Stored names and values *)

Section StoredText.
Context (cfg : config).

Lemma js_trim_bounded v max :
  text_in_bounds v max → length (js_trim v) ≤ max ∧ trimmed (js_trim v).
Proof.
  intros (s & -> & _ & Hmax). simpl. split; [|apply trim_trimmed].
  etrans; [apply trim_length|done].
Qed.

Lemma created_stored_text req o :
  bad_field (body_name req) 100 = false →
  bad_field (body_value req) 500 = false →
  stored_text (created req o).
Proof.
  intros Hn%bad_field_false%js_trim_bounded
         Hv%bad_field_false%js_trim_bounded.
  unfold stored_text, created. simpl. tauto.
Qed.

Lemma updated_stored_text req o it :
  stored_text it → stored_text (updated req o it).
Proof.
  intros (Hn & Hv & Htn & Htv). unfold stored_text, updated. simpl.
  destruct (good_field (body_name req) 100) eqn:En;
    [apply good_field_spec, js_trim_bounded in En|];
    (destruct (good_field (body_value req) 500) eqn:Ev;
      [apply good_field_spec, js_trim_bounded in Ev|]);
    tauto.
Qed.

(** The upper bounds and the trimming are kept by every request. *)
Lemma app_stored_text r req o w :
  coherent w → Forall stored_text (db_file w) →
  Forall stored_text (db_file (app cfg r req o w).2).
Proof.
  intros Hc Hall. unfold app.
  destruct (guard_cases cfg (middleware r) req (handler r o))
    as [(req' & -> & _)|(msg & ->)]; [|done].
  destruct r; cbn [handler].
  - done.
  - unfold post_tx.
    destruct (bad_field (body_name req') 100) eqn:Hn; [done|].
    destruct (bad_field (body_value req') 500) eqn:Hv; [done|].
    run_handler. rewrite Hc. apply Forall_app. split; [done|].
    apply Forall_singleton. by apply created_stored_text.
  - by rewrite get_rx_run.
  - by rewrite get_rx_name_run.
  - destruct (list_find (λ i, Item.id i = params req') (db_file w))
      as [[idx item]|] eqn:Hfind.
    + rewrite (put_tx_id_found _ _ _ _ _ Hfind). simpl.
      apply find_by_id_inv in Hfind as [Hi _].
      apply Forall_insert; [done|]. apply updated_stored_text.
      by eapply Forall_lookup_1.
    + by rewrite (put_tx_id_missing _ _ _ Hfind).
  - destruct (list_find (λ i, Item.id i = params req') (db_file w))
      as [[idx item]|] eqn:Hfind.
    + rewrite (delete_tx_id_found _ _ _ _ Hfind). simpl.
      by apply Forall_delete.
    + by rewrite (delete_tx_id_missing _ _ Hfind).
  - rewrite delete_tx_run. simpl. apply Forall_nil_2.
Qed.

End StoredText.

(** C1, on the code: a name (or a value) made of white space only has raw
    length at least 1, so [POST /tx] and [PUT /tx/:id] accept it, and what
    they store is its trimmed form, the empty string, below the lower
    bound of 1. *)
Theorem C1_blank_name_stored_empty :
  let blank := VString (js "   ") in
  let post := Sample.req (Some Sample.admin_key) [] blank (VString (js "x")) in
  let put := Sample.req (Some Sample.admin_key) (js "6f1c") blank VUndefined in
  text_in_bounds blank 100 ∧
  reachable Sample.cfg (app Sample.cfg POST_tx post Sample.o (boot None)).2 ∧
  app Sample.cfg POST_tx post Sample.o (boot None) =
  (ok (PItem {| Item.id := js "c4d7"; Item.name := []; Item.value := js "x";
                Item.time := 1700000001000 |}),
   {| db_data := [{| Item.id := js "c4d7"; Item.name := [];
                     Item.value := js "x"; Item.time := 1700000001000 |}];
      db_file := [{| Item.id := js "c4d7"; Item.name := [];
                     Item.value := js "x"; Item.time := 1700000001000 |}];
      trace := [DbWrite [];
                DbWrite [{| Item.id := js "c4d7"; Item.name := [];
                            Item.value := js "x";
                            Item.time := 1700000001000 |}];
                Send (ok (PItem {| Item.id := js "c4d7"; Item.name := [];
                                   Item.value := js "x";
                                   Item.time := 1700000001000 |}))] |}) ∧
  db_file (app Sample.cfg PUT_tx_id put Sample.o Sample.w2).2 =
  [{| Item.id := js "6f1c"; Item.name := []; Item.value := js "10.0.0.1";
      Item.time := 1700000001000 |}; Sample.port].
Proof.
  split_and!; [| |reflexivity..].
  - exists (js "   "). split; [done|simpl; lia].
  - apply reach_app, reach_boot.
Qed.

(** * Further properties of the server *)

(** ** More on [trim] *)

Section TrimMore.

Lemma trimStart_id s : no_lead_ws s → trimStart s = s.
Proof.
  destruct s as [|c s]; [done|]. intros H. simpl.
  by rewrite (H c eq_refl).
Qed.

Lemma trimEnd_id s : no_trail_ws s → trimEnd s = s.
Proof.
  intros H. unfold trimEnd. rewrite trimStart_id.
  - apply reverse_involutive.
  - intros c Hc. apply H. by rewrite <- head_reverse.
Qed.

Lemma trim_id s : trimmed s → trim s = s.
Proof.
  intros [Hl Ht]. unfold trim. rewrite (trimStart_id s Hl).
  by apply trimEnd_id.
Qed.

Lemma trimStart_nil s : trimStart s = [] ↔ blank s = true.
Proof.
  unfold blank. induction s as [|c s IH]; simpl; [done|].
  destruct (is_ws c); simpl; [done|]. split; done.
Qed.

Lemma blank_reverse s : blank (reverse s) = blank s.
Proof.
  unfold blank. induction s as [|c s IH]; [done|].
  rewrite reverse_cons, forallb_app. simpl. rewrite IH.
  destruct (is_ws c), (forallb is_ws s); done.
Qed.

Lemma trim_nil s : trim s = [] ↔ blank s = true.
Proof.
  unfold trim, trimEnd. split.
  - intros H. apply trimStart_nil.
    assert (trimStart (reverse (trimStart s)) = []) as H'.
    { apply (f_equal reverse) in H. by rewrite reverse_involutive in H. }
    apply trimStart_nil in H'. rewrite blank_reverse in H'.
    destruct (trimStart s) as [|c t] eqn:E; [done|].
    pose proof (trimStart_head s c) as Hc. rewrite E in Hc.
    specialize (Hc eq_refl). unfold blank in H'. simpl in H'.
    by rewrite Hc in H'.
  - intros H%trimStart_nil. by rewrite H.
Qed.

End TrimMore.

(** ** The shape of every outcome *)

Section Outcomes.
Context (cfg : config).

(** What a handler can leave behind: an answer alone, a read and an
    answer, a read, a write and an answer, or (for [POST /tx]) a write and
    an answer. *)
Lemma handler_outcome r o req w :
  (handler r o req w).2 = answered (handler r o req w).1 w ∧
    ((r = GET_root ∧ status (handler r o req w).1 = 200) ∨
     (r = POST_tx ∧ status (handler r o req w).1 = 400))
  ∨ (handler r o req w).2 = loaded (handler r o req w).1 w ∧
    ((reading r = true ∧ status (handler r o req w).1 = 200) ∨
     (mutating r = true ∧ status (handler r o req w).1 = 404))
  ∨ (∃ d, (handler r o req w).2 = rewritten d (handler r o req w).1 w) ∧
    mutating r = true ∧ status (handler r o req w).1 = 200
  ∨ (handler r o req w).2 =
      appended (created req o) (handler r o req w).1 w ∧
    r = POST_tx ∧ status (handler r o req w).1 = 200.
Proof.
  destruct r; cbn [handler].
  - left. split; [done|by left].
  - destruct (bad_field (body_name req) 100) eqn:Hn;
      [left; unfold post_tx; rewrite Hn; split; [done|by right]|].
    destruct (bad_field (body_value req) 500) eqn:Hv;
      [left; unfold post_tx; rewrite Hn, Hv; split; [done|by right]|].
    do 3 right. by rewrite (post_tx_valid _ _ _ Hn Hv).
  - right; left. rewrite get_rx_run. split; [done|by left].
  - right; left. rewrite get_rx_name_run. split; [done|by left].
  - destruct (list_find (λ i, Item.id i = params req) (db_file w))
      as [[idx item]|] eqn:Hfind.
    + do 2 right; left. rewrite (put_tx_id_found _ _ _ _ _ Hfind).
      split; [by eexists|done].
    + right; left. rewrite (put_tx_id_missing _ _ _ Hfind).
      split; [done|by right].
  - destruct (list_find (λ i, Item.id i = params req) (db_file w))
      as [[idx item]|] eqn:Hfind.
    + do 2 right; left. rewrite (delete_tx_id_found _ _ _ _ Hfind).
      split; [by eexists|done].
    + right; left. rewrite (delete_tx_id_missing _ _ Hfind).
      split; [done|by right].
  - do 2 right; left. rewrite delete_tx_run. split; [by eexists|done].
Qed.

(** The gate either answers 401 itself or hands over to the handler. *)
Lemma app_gate_cases r req o w :
  (∃ msg, app cfg r req o w = (failed 401 msg, answered (failed 401 msg) w))
  ∨ (∃ req', app cfg r req o w = handler r o req' w ∧
             params req' = params req ∧ body_name req' = body_name req ∧
             body_value req' = body_value req).
Proof.
  unfold app.
  destruct (guard_cases cfg (middleware r) req (handler r o))
    as [(req' & -> & ?)|(msg & ->)]; [right; by exists req'|left; by exists msg].
Qed.

Lemma handler_never_401 r o req w : status (handler r o req w).1 ≠ 401.
Proof.
  destruct (handler_outcome r o req w)
    as [[_ [[_ H]|[_ H]]]|[[_ [[_ H]|[_ H]]]|[(_ & _ & H)|(_ & _ & H)]]];
    rewrite H; done.
Qed.

End Outcomes.

(** ** Who gets through the gates *)

(** X1: a request answered 401 has touched nothing: the in-memory items
    and the file are as before, and the only thing that happened is the
    answer (no read of the file, no write). *)
Theorem denied_request_is_noop cfg r req o w :
  status (app cfg r req o w).1 = 401 →
  db_data (app cfg r req o w).2 = db_data w ∧
  db_file (app cfg r req o w).2 = db_file w ∧
  trace (app cfg r req o w).2 = trace w ++ [Send (app cfg r req o w).1].
Proof.
  intros H401.
  destruct (app_gate_cases cfg r req o w) as [(msg & Hrun)|(req' & Hrun & _)];
    rewrite Hrun in *; [done|].
  by destruct (handler_never_401 r o req' w).
Qed.

Lemma denied_request_is_noop_witness :
  let req := Sample.req None (js "6f1c") VUndefined VUndefined in
  status (app Sample.cfg DELETE_tx_id req Sample.o Sample.w2).1 = 401 ∧
  db_file (app Sample.cfg DELETE_tx_id req Sample.o Sample.w2).2 =
  [Sample.host; Sample.port].
Proof.
  intros req. split; [reflexivity|].
  destruct (denied_request_is_noop Sample.cfg DELETE_tx_id req
              Sample.o Sample.w2) as (_ & Hfile & _).
  - reflexivity.
  - rewrite Hfile. reflexivity.
Defined.

(** X2: on the four mutating routes the handler runs exactly when the
    request carries a non-empty key equal to [API_KEY]; any other request,
    the read-only secret included, is answered 401. *)
Theorem mutating_route_admin_only cfg r req o w :
  mutating r = true →
  status (app cfg r req o w).1 ≠ 401 ↔ presents_admin cfg req.
Proof.
  intros Hm. split.
  - intros Hst.
    destruct (falsy (headers_x_api_key req)) eqn:Hf;
      [|destruct (decide (headers_x_api_key req = API_KEY cfg)) as [Hk|Hk]];
      [|done|]; destruct Hst;
      rewrite mutating_needs_admin; try done; intros [? ?]; congruence.
  - intros Ha. rewrite served_to_admin by done. apply handler_never_401.
Qed.

Lemma mutating_route_admin_only_witness :
  let req := Sample.req (Some Sample.admin_key) [] VUndefined VUndefined in
  mutating DELETE_tx = true ∧
  status (app Sample.cfg DELETE_tx req Sample.o Sample.w2).1 ≠ 401.
Proof.
  intros req. split; [reflexivity|].
  apply (mutating_route_admin_only Sample.cfg DELETE_tx req Sample.o Sample.w2).
  - reflexivity.
  - split; reflexivity.
Defined.

(** X3: on the two read routes the answer is 200 exactly when the request
    carries a non-empty key equal to [API_KEY] or to [READONLY_API_KEY]. *)
Theorem read_route_reader_only cfg r req o w :
  reading r = true →
  status (app cfg r req o w).1 = 200 ↔ presents_reader cfg req.
Proof.
  intros Hr. unfold app, presents_reader.
  rewrite (reading_read_gate r Hr). simpl. unfold requireReadKey.
  destruct (falsy (headers_x_api_key req)) eqn:Hf; [split; [done|by intros [? _]]|].
  destruct (bool_decide_reflect (headers_x_api_key req = API_KEY cfg)).
  { split; [auto|intros _; by apply reading_status]. }
  destruct (bool_decide_reflect (headers_x_api_key req = READONLY_API_KEY cfg)).
  { split; [auto|intros _; by apply reading_status]. }
  split; [done|intros [_ [?|?]]; done].
Qed.

Lemma read_route_reader_only_witness :
  let req := Sample.req (Some Sample.readonly_key) [] VUndefined VUndefined in
  reading GET_rx = true ∧
  status (app Sample.cfg GET_rx req Sample.o Sample.w2).1 = 200.
Proof.
  intros req. split; [reflexivity|].
  apply (read_route_reader_only Sample.cfg GET_rx req Sample.o Sample.w2).
  - reflexivity.
  - split; [reflexivity|right; reflexivity].
Defined.

(** X4: when [READONLY_API_KEY] is not set, or set to the empty string, the
    read routes answer 200 to the admin secret only. *)
Theorem read_route_without_readonly_secret cfg r req o w :
  falsy (READONLY_API_KEY cfg) = true →
  reading r = true →
  status (app cfg r req o w).1 = 200 ↔ presents_admin cfg req.
Proof.
  intros Hro Hr. split.
  - intros Hst.
    destruct (falsy (headers_x_api_key req)) eqn:Hf;
      [|destruct (decide (headers_x_api_key req = API_KEY cfg)) as [Hk|Hk]];
      [|done|]; exfalso; revert Hst; unfold app;
      rewrite (reading_read_gate r Hr); simpl;
      (edestruct (read_gate_without_readonly cfg req) as [msg ->];
        [done|intros [? ?]; congruence|done]).
  - intros Ha. rewrite served_to_admin by done. by apply reading_status.
Qed.

Lemma read_route_without_readonly_secret_witness :
  let cfg := {| API_KEY := Some Sample.admin_key; READONLY_API_KEY := None |} in
  let req := Sample.req (Some Sample.admin_key) [] VUndefined VUndefined in
  falsy (READONLY_API_KEY cfg) = true ∧
  status (app cfg GET_rx req Sample.o Sample.w2).1 = 200.
Proof.
  intros cfg req. split; [reflexivity|].
  apply (read_route_without_readonly_secret cfg GET_rx req Sample.o Sample.w2).
  - reflexivity.
  - reflexivity.
  - split; reflexivity.
Defined.

(** X5: the process gets past its start-up check only with an [API_KEY] of
    at least 20 code units, so in a server that started a request admitted
    to a mutating route carries a key of at least 20 code units. *)
Theorem admitted_key_is_long cfg r req o w :
  api_key_fatal cfg = false →
  mutating r = true →
  status (app cfg r req o w).1 ≠ 401 →
  20 ≤ key_length (headers_x_api_key req).
Proof.
  intros Hstart Hm Hst.
  assert (presents_admin cfg req) as [_ Hk].
  { destruct (falsy (headers_x_api_key req)) eqn:Hf;
      [|destruct (decide (headers_x_api_key req = API_KEY cfg)) as [Hk|Hk]];
      [|done|]; destruct Hst;
      rewrite mutating_needs_admin; try done; intros [? ?]; congruence. }
  rewrite Hk. unfold api_key_fatal in Hstart.
  apply orb_false_iff in Hstart as [_ Hlen].
  by apply Nat.ltb_ge in Hlen.
Qed.

Lemma admitted_key_is_long_witness :
  let req := Sample.req (Some Sample.admin_key) [] VUndefined VUndefined in
  api_key_fatal Sample.cfg = false ∧
  20 ≤ key_length (headers_x_api_key req).
Proof.
  intros req. split; [reflexivity|].
  apply (admitted_key_is_long Sample.cfg DELETE_tx req Sample.o Sample.w2).
  - reflexivity.
  - reflexivity.
  - intros H. discriminate H.
Defined.

(** ** What a request does to the file *)

(** X6: a request that is not answered 200 (400, 401 or 404) leaves the
    file as it was, and [db.write()] is not called while it is served. *)
Theorem failed_request_keeps_file cfg r req o w :
  status (app cfg r req o w).1 ≠ 200 →
  db_file (app cfg r req o w).2 = db_file w ∧
  ∃ evs, trace (app cfg r req o w).2 = trace w ++ evs ∧
         forallb (λ e, negb (is_write e)) evs = true.
Proof.
  intros Hst.
  destruct (app_gate_cases cfg r req o w) as [(msg & Hrun)|(req' & Hrun & _)];
    rewrite Hrun in *.
  { split; [done|by eexists]. }
  destruct (handler_outcome r o req' w)
    as [[Hw _]|[[Hw _]|[(_ & _ & Hs)|(_ & _ & Hs)]]];
    [| |by destruct Hst..]; rewrite Hw; (split; [done|by eexists]).
Qed.

Lemma failed_request_keeps_file_witness :
  let req := Sample.req (Some Sample.admin_key) (js "0000")
               (VString (js "x")) VUndefined in
  status (app Sample.cfg PUT_tx_id req Sample.o Sample.w2).1 ≠ 200 ∧
  db_file (app Sample.cfg PUT_tx_id req Sample.o Sample.w2).2 =
  [Sample.host; Sample.port].
Proof.
  intros req.
  assert (status (app Sample.cfg PUT_tx_id req Sample.o Sample.w2).1 ≠ 200)
    as Hst by (intros H; discriminate H).
  split; [exact Hst|].
  destruct (failed_request_keeps_file Sample.cfg PUT_tx_id req
              Sample.o Sample.w2 Hst) as [Hfile _].
  rewrite Hfile. reflexivity.
Defined.

(** X7: [GET /], [GET /rx] and [GET /rx/:name] never change the file and
    never call [db.write()], whatever the request. *)
Theorem read_routes_never_write cfg r req o w :
  mutating r = false →
  db_file (app cfg r req o w).2 = db_file w ∧
  ∃ evs, trace (app cfg r req o w).2 = trace w ++ evs ∧
         forallb (λ e, negb (is_write e)) evs = true.
Proof.
  intros Hm.
  destruct (app_gate_cases cfg r req o w) as [(msg & Hrun)|(req' & Hrun & _)];
    rewrite Hrun in *.
  { split; [done|by eexists]. }
  destruct (handler_outcome r o req' w)
    as [[Hw _]|[[Hw _]|[(_ & Hm' & _)|(_ & Hr & _)]]];
    [| |congruence|by rewrite Hr in Hm]; rewrite Hw;
    (split; [done|by eexists]).
Qed.

Lemma read_routes_never_write_witness :
  let req := Sample.req (Some Sample.admin_key) (js "host")
               VUndefined VUndefined in
  mutating GET_rx_name = false ∧
  db_file (app Sample.cfg GET_rx_name req Sample.o Sample.w2).2 =
  [Sample.host; Sample.port].
Proof.
  intros req. split; [reflexivity|].
  destruct (read_routes_never_write Sample.cfg GET_rx_name req
              Sample.o Sample.w2 eq_refl) as [Hfile _].
  rewrite Hfile. reflexivity.
Defined.

(** X8: every request is answered exactly once, and the answer is the last
    thing that happens: what a request adds to the trace ends with the
    sending of its response and holds no other sending. *)
Theorem one_answer_per_request cfg r req o w :
  ∃ pre, trace (app cfg r req o w).2 =
         trace w ++ pre ++ [Send (app cfg r req o w).1] ∧
         forallb (λ e, negb (is_send e)) pre = true.
Proof.
  destruct (app_gate_cases cfg r req o w) as [(msg & Hrun)|(req' & Hrun & _)];
    rewrite Hrun.
  { by exists []. }
  destruct (handler_outcome r o req' w)
    as [[Hw _]|[[Hw _]|[([d Hw] & _)|(Hw & _)]]]; rewrite Hw.
  - by exists [].
  - by eexists [_].
  - by eexists [_; _].
  - by eexists [_].
Qed.

(** X9: a [PUT /tx/:id] never changes which ids the document holds, nor
    their order, nor the number of items, whatever the request. *)
Theorem update_keeps_ids cfg req o w :
  ids (db_file (app cfg PUT_tx_id req o w).2) = ids (db_file w) ∧
  length (db_file (app cfg PUT_tx_id req o w).2) = length (db_file w).
Proof.
  destruct (app_gate_cases cfg PUT_tx_id req o w)
    as [(msg & Hrun)|(req' & Hrun & _)]; rewrite Hrun; [done|].
  cbn [handler].
  destruct (list_find (λ i, Item.id i = params req') (db_file w))
    as [[idx item]|] eqn:Hfind.
  - rewrite (put_tx_id_found _ _ _ _ _ Hfind). simpl.
    apply find_by_id_inv in Hfind as [Hi _].
    split; [by apply (ids_insert _ _ item)|by rewrite length_insert].
  - by rewrite (put_tx_id_missing _ _ _ Hfind).
Qed.

(** ** Invariants over a sequence of requests *)

Section Runs.
Context (cfg : config).

Lemma boot_file existing : db_file (boot existing) = default [] existing.
Proof. by destruct existing. Qed.

Lemma boot_coherent existing : coherent (boot existing).
Proof. by destruct existing. Qed.

Lemma run_coherent calls w : coherent w → coherent (run cfg calls w).
Proof.
  revert w. induction calls as [|c calls IH]; intros w Hc; [done|].
  simpl. apply IH. by apply app_coherent.
Qed.

Lemma run_stored_text calls w :
  coherent w → Forall stored_text (db_file w) →
  Forall stored_text (db_file (run cfg calls w)).
Proof.
  revert w. induction calls as [|c calls IH]; intros w Hc Hall; [done|].
  simpl. apply IH; [by apply app_coherent|by apply app_stored_text].
Qed.

(** The ids after a request are ids from before, or the generated one. *)
Lemma app_ids_origin r req o w x :
  coherent w →
  x ∈ ids (db_file (app cfg r req o w).2) →
  x = randomUUID o ∨ x ∈ ids (db_file w).
Proof.
  intros Hc.
  destruct (app_gate_cases cfg r req o w) as [(msg & Hrun)|(req' & Hrun & _)];
    rewrite Hrun; [by right|].
  destruct r; cbn [handler].
  - by right.
  - unfold post_tx.
    destruct (bad_field (body_name req') 100); [by right|].
    destruct (bad_field (body_value req') 500); [by right|].
    run_handler. rewrite Hc, ids_snoc.
    intros [H|H%list_elem_of_singleton]%elem_of_app; [by right|by left].
  - rewrite get_rx_run. by right.
  - rewrite get_rx_name_run. by right.
  - destruct (list_find (λ i, Item.id i = params req') (db_file w))
      as [[idx item]|] eqn:Hfind.
    + rewrite (put_tx_id_found _ _ _ _ _ Hfind). simpl.
      apply find_by_id_inv in Hfind as [Hi _].
      rewrite (ids_insert _ _ item) by done. by right.
    + rewrite (put_tx_id_missing _ _ _ Hfind). by right.
  - destruct (list_find (λ i, Item.id i = params req') (db_file w))
      as [[idx item]|] eqn:Hfind.
    + rewrite (delete_tx_id_found _ _ _ _ Hfind). simpl.
      unfold ids. rewrite list_fmap_delete.
      intros H%list_elem_of_delete_inv. by right.
    + rewrite (delete_tx_id_missing _ _ Hfind). by right.
  - rewrite delete_tx_run. simpl. by intros H%elem_of_nil.
Qed.


Lemma run_unique_ids calls w :
  coherent w → NoDup (ids (db_file w)) → NoDup (uuids calls) →
  (∀ u, u ∈ uuids calls → u ∉ ids (db_file w)) →
  NoDup (ids (db_file (run cfg calls w))).
Proof.
  revert w. induction calls as [|c calls IH]; intros w Hc Hnd Hu Hfresh;
    [done|].
  unfold uuids in Hu, Hfresh. rewrite fmap_cons in Hu, Hfresh.
  apply NoDup_cons in Hu as [Hhead Hu].
  simpl. apply IH.
  - by apply app_coherent.
  - apply app_unique_ids; [done..|]. apply Hfresh, list_elem_of_here.
  - done.
  - intros u Hin Hu'. unfold serve in Hu'.
    apply app_ids_origin in Hu' as [->|Hu']; [done| |done].
    by apply (Hfresh u); [apply list_elem_of_further|].
Qed.

End Runs.

(** X10: after start-up and after any sequence of requests, accepted or
    not, the in-memory items equal the items in [db.json]. *)
Theorem memory_matches_file cfg existing calls :
  db_data (run cfg calls (boot existing)) =
  db_file (run cfg calls (boot existing)).
Proof. apply run_coherent, boot_coherent. Qed.

(** X11: if every item of the [db.json] found at start-up has a name of at
    most 100 and a value of at most 500 code units, both without white
    space at either end (an absent file for one), the same holds of every
    item after any sequence of requests. *)
Theorem stored_text_upper_bounds_kept cfg existing calls :
  Forall stored_text (default [] existing) →
  Forall stored_text (db_file (run cfg calls (boot existing))).
Proof.
  intros Hall. apply run_stored_text; [apply boot_coherent|].
  by rewrite boot_file.
Qed.

Lemma stored_text_upper_bounds_kept_witness :
  let calls :=
    [{| call_route := POST_tx;
        call_req := Sample.req (Some Sample.admin_key) []
                      (VString (js "  mode ")) (VString (js "fast"));
        call_oracle := Sample.o |}] in
  Forall stored_text (default [] None) ∧
  Forall stored_text (db_file (run Sample.cfg calls (boot None))).
Proof.
  intros calls. split; [apply Forall_nil_2|].
  apply (stored_text_upper_bounds_kept Sample.cfg None calls).
  apply Forall_nil_2.
Defined.

(** X12: the ids of the document stay pairwise distinct over any sequence
    of requests, provided they were distinct in the [db.json] found at
    start-up and the values returned by [crypto.randomUUID()] are pairwise
    distinct and differ from the ids found at start-up. *)
Theorem ids_stay_distinct cfg existing calls :
  NoDup (ids (default [] existing)) →
  NoDup (uuids calls) →
  (∀ u, u ∈ uuids calls → u ∉ ids (default [] existing)) →
  NoDup (ids (db_file (run cfg calls (boot existing)))).
Proof.
  intros Hnd Hu Hfresh.
  apply run_unique_ids; [apply boot_coherent|by rewrite boot_file|done|].
  by rewrite boot_file.
Qed.

Lemma ids_stay_distinct_witness :
  let post n v u :=
    {| call_route := POST_tx;
       call_req := Sample.req (Some Sample.admin_key) []
                     (VString n) (VString v);
       call_oracle := {| randomUUID := u; now := 1700000001000 |} |} in
  let calls :=
    [post (js "mode") (js "fast") (js "c4d7");
     {| call_route := DELETE_tx_id;
        call_req := Sample.req (Some Sample.admin_key) (js "9b2e")
                      VUndefined VUndefined;
        call_oracle := {| randomUUID := js "a1b2"; now := 1700000002000 |} |};
     post (js "port") (js "8080") (js "e5f8");
     post (js "host") (js "10.0.0.2") (js "0d3a")] in
  let existing := Some [Sample.host; Sample.port] in
  NoDup (ids (default [] existing)) ∧
  NoDup (uuids calls) ∧
  ids (db_file (run Sample.cfg calls (boot existing))) =
  [js "6f1c"; js "c4d7"; js "e5f8"; js "0d3a"] ∧
  NoDup (ids (db_file (run Sample.cfg calls (boot existing)))).
Proof.
  intros post calls existing.
  assert (NoDup (ids (default [] existing))) as Hnd.
  { apply NoDup_ListNoDup. repeat constructor; simpl; intros H;
      repeat (destruct H as [H|H]; [discriminate H|]); exact H. }
  assert (NoDup (uuids calls)) as Hu.
  { apply NoDup_ListNoDup. repeat constructor; simpl; intros H;
      repeat (destruct H as [H|H]; [discriminate H|]); exact H. }
  split_and!; [exact Hnd|exact Hu|reflexivity|].
  apply (ids_stay_distinct Sample.cfg existing calls).
  - exact Hnd.
  - exact Hu.
  - intros u Hin H. apply list_elem_of_In in Hin, H. simpl in Hin, H.
    repeat (destruct Hin as [Hin|Hin];
            [subst u; repeat (destruct H as [H|H]; [discriminate H|]);
             exact H|]).
    exact Hin.
Defined.



(** ** Queries *)

Section Readers.
Context (cfg : config).

Lemma presents_admin_dec req : presents_admin cfg req ∨ ¬ presents_admin cfg req.
Proof.
  unfold presents_admin.
  destruct (falsy (headers_x_api_key req));
    [right; by intros [? _]|].
  destruct (decide (headers_x_api_key req = API_KEY cfg));
    [by left|right; by intros [_ ?]].
Qed.

(** A reader reaches the handler of a read route, with one role or the
    other. *)
Lemma served_to_reader r req o :
  reading r = true → presents_reader cfg req →
  ∃ role, app cfg r req o = handler r o (set_apiRole role req).
Proof.
  intros Hr [Hf Hk]. unfold app. rewrite (reading_read_gate r Hr). simpl.
  unfold requireReadKey. rewrite Hf.
  destruct (bool_decide_reflect (headers_x_api_key req = API_KEY cfg));
    [by exists Admin|].
  destruct Hk as [Hk|Hk]; [done|].
  rewrite bool_decide_eq_true_2 by done. by exists Readonly.
Qed.

Lemma filter_none (P : Item.t → Prop) `{∀ x, Decision (P x)} (d : document) :
  Forall (λ x, ¬ P x) d → filter P d = [].
Proof.
  induction 1 as [|x d Hx _ IH]; [done|].
  by rewrite filter_cons_False.
Qed.

Lemma find_by_id_None (d : document) k :
  list_find (λ x, Item.id x = k) d = None ↔ k ∉ ids d.
Proof.
  split; [|apply find_by_id_absent].
  intros Hnone%list_find_None Hin.
  unfold ids in Hin. apply list_elem_of_fmap in Hin as (x & -> & Hx).
  by apply (proj1 (Forall_forall _ _) Hnone x).
Qed.

Lemma list_find_insert_same (P : Item.t → Prop) `{∀ x, Decision (P x)}
    (d : document) i x y :
  list_find P d = Some (i, x) → P y → list_find P (<[i:=y]> d) = Some (i, y).
Proof.
  intros (Hi & _ & Hbefore)%list_find_Some Hy.
  apply list_find_Some. split_and!; [|done|].
  - apply list_lookup_insert_eq. by eapply lookup_lt_Some.
  - intros j z Hj Hlt. rewrite list_lookup_insert_ne in Hj by lia.
    by apply (Hbefore j).
Qed.

End Readers.

(** X14: [GET /rx/:name] answers a reader with exactly the items of the
    file whose name equals the path parameter, code unit for code unit, as
    often and in the order the file has them, and leaves the file as it
    was. *)
Theorem query_by_name_exact cfg req o w :
  presents_reader cfg req →
  let l := filter (λ i, Item.name i = params req) (db_file w) in
  app cfg GET_rx_name req o w = (ok (PItems l), loaded (ok (PItems l)) w) ∧
  l `sublist_of` db_file w ∧
  ∀ it, it ∈ l ↔ it ∈ db_file w ∧ Item.name it = params req.
Proof.
  intros Hr l. subst l.
  destruct (served_to_reader cfg GET_rx_name req o eq_refl Hr) as [role ->].
  cbn [handler]. rewrite get_rx_name_run. cbn [params set_apiRole].
  split_and!; [done|apply sublist_filter|].
  intros it. rewrite list_elem_of_filter. tauto.
Qed.

Lemma query_by_name_exact_witness :
  let twin := {| Item.id := js "77aa"; Item.name := js "host";
                 Item.value := js "10.0.0.9"; Item.time := 5 |} in
  let w := boot (Some [Sample.host; Sample.port; twin; Sample.host]) in
  let req := Sample.req (Some Sample.readonly_key) (js "host")
               VUndefined VUndefined in
  presents_reader Sample.cfg req ∧
  (app Sample.cfg GET_rx_name req Sample.o w).1 =
  ok (PItems [Sample.host; twin; Sample.host]).
Proof.
  intros twin w req.
  assert (presents_reader Sample.cfg req) as Hr
    by (split; [reflexivity|right; reflexivity]).
  split; [exact Hr|].
  destruct (query_by_name_exact Sample.cfg req Sample.o w Hr) as (Hrun & _).
  rewrite Hrun. reflexivity.
Defined.

(** X15: after [POST /tx] has accepted a name, [GET /rx/:name] with the
    trimmed name returns the items that already had that name followed by
    the new one. *)
Theorem created_item_found_by_name cfg req q o o' w n v :
  presents_admin cfg req →
  body_name req = VString n → body_value req = VString v →
  1 ≤ length n ≤ 100 → 1 ≤ length v ≤ 500 →
  coherent w →
  presents_reader cfg q → params q = trim n →
  (app cfg GET_rx_name q o' (app cfg POST_tx req o w).2).1 =
  ok (PItems (filter (λ i, Item.name i = trim n) (db_file w) ++
              [{| Item.id := randomUUID o; Item.name := trim n;
                  Item.value := trim v; Item.time := now o |}])).
Proof.
  intros Ha Hn Hv Hln Hlv Hc Hq Hp.
  rewrite (served_to_admin cfg POST_tx req o) by done.
  cbn [handler middleware].
  rewrite post_tx_valid;
    [|apply bad_field_false; cbn [body_name body_value set_apiRole];
      eexists; split; [eassumption|done]..].
  destruct (served_to_reader cfg GET_rx_name q o' eq_refl Hq) as [role ->].
  cbn [handler snd]. rewrite get_rx_name_run.
  cbn [fst db_file params set_apiRole]. rewrite Hp, Hc.
  unfold created. cbn [body_name body_value set_apiRole]. rewrite Hn, Hv.
  cbn [js_trim]. rewrite filter_app. by rewrite filter_cons_True.
Qed.

Lemma created_item_found_by_name_witness :
  let req := Sample.req (Some Sample.admin_key) []
               (VString (js " host ")) (VString (js "10.0.0.2")) in
  let q := Sample.req (Some Sample.readonly_key) (js "host")
             VUndefined VUndefined in
  presents_admin Sample.cfg req ∧
  (app Sample.cfg GET_rx_name q Sample.o
     (app Sample.cfg POST_tx req Sample.o Sample.w2).2).1 =
  ok (PItems [Sample.host;
              {| Item.id := js "c4d7"; Item.name := js "host";
                 Item.value := js "10.0.0.2"; Item.time := 1700000001000 |}]).
Proof.
  intros req q.
  assert (presents_admin Sample.cfg req) as Ha by (split; reflexivity).
  split; [exact Ha|].
  rewrite (created_item_found_by_name Sample.cfg req q Sample.o Sample.o
             Sample.w2 (js " host ") (js "10.0.0.2")).
  - reflexivity.
  - exact Ha.
  - reflexivity.
  - reflexivity.
  - simpl. lia.
  - simpl. lia.
  - reflexivity.
  - split; [reflexivity|right; reflexivity].
  - reflexivity.
Defined.

(** X16: stored names carry no white space at either end, so a query whose
    path parameter starts or ends with white space matches none of them. *)
Theorem query_with_outer_space_is_empty cfg req o w :
  presents_reader cfg req →
  Forall stored_text (db_file w) →
  ¬ trimmed (params req) →
  (app cfg GET_rx_name req o w).1 = ok (PItems []).
Proof.
  intros Hr Hall Hp.
  destruct (served_to_reader cfg GET_rx_name req o eq_refl Hr) as [role ->].
  cbn [handler]. rewrite get_rx_name_run. cbn [fst params set_apiRole].
  rewrite filter_none; [done|].
  eapply Forall_impl; [exact Hall|].
  intros it (_ & _ & Ht & _) Heq. apply Hp. by rewrite <- Heq.
Qed.

Lemma query_with_outer_space_is_empty_witness :
  let req := Sample.req (Some Sample.admin_key) (js " host")
               VUndefined VUndefined in
  presents_reader Sample.cfg req ∧
  Forall stored_text (db_file Sample.w2) ∧
  db_file Sample.w2 = [Sample.host; Sample.port] ∧
  (app Sample.cfg GET_rx_name req Sample.o Sample.w2).1 = ok (PItems []).
Proof.
  intros req.
  assert (presents_reader Sample.cfg req) as Hr
    by (split; [reflexivity|left; reflexivity]).
  assert (Forall stored_text (db_file Sample.w2)) as Hall.
  { repeat constructor; simpl; try lia;
      intros c Hc; injection Hc as <-; reflexivity. }
  split_and!; [exact Hr|exact Hall|reflexivity|].
  apply (query_with_outer_space_is_empty Sample.cfg req Sample.o Sample.w2).
  - exact Hr.
  - exact Hall.
  - intros [Hl _]. specialize (Hl 32%N eq_refl). discriminate Hl.
Defined.

(** ** Deleting *)

(** X17: [DELETE /tx] with the admin secret answers 200 with the number of
    items the file held and writes an empty document; after it [GET /rx]
    returns the empty array and a second [DELETE /tx] reports 0. *)
Theorem delete_all_clears cfg req q o o' w :
  presents_admin cfg req →
  presents_reader cfg q →
  let w1 := (app cfg DELETE_tx req o w).2 in
  app cfg DELETE_tx req o w =
  (ok (PDeleted (length (db_file w))),
   rewritten [] (ok (PDeleted (length (db_file w)))) w) ∧
  (app cfg GET_rx q o' w1).1 = ok (PItems []) ∧
  (app cfg DELETE_tx req o' w1).1 = ok (PDeleted 0).
Proof.
  intros Ha Hq w1. subst w1.
  rewrite !(served_to_admin cfg DELETE_tx req) by done.
  cbn [handler middleware]. rewrite !delete_tx_run. cbn [snd].
  split_and!; [done| |done].
  destruct (served_to_reader cfg GET_rx q o' eq_refl Hq) as [role ->].
  cbn [handler]. by rewrite get_rx_run.
Qed.

Lemma delete_all_clears_witness :
  let req := Sample.req (Some Sample.admin_key) [] VUndefined VUndefined in
  presents_admin Sample.cfg req ∧
  (app Sample.cfg DELETE_tx req Sample.o Sample.w2).1 = ok (PDeleted 2).
Proof.
  intros req.
  assert (presents_admin Sample.cfg req) as Ha by (split; reflexivity).
  split; [exact Ha|].
  destruct (delete_all_clears Sample.cfg req req Sample.o Sample.o Sample.w2)
    as (Hrun & _).
  - exact Ha.
  - split; [reflexivity|left; reflexivity].
  - rewrite Hrun. reflexivity.
Defined.

(** X18: with the admin secret, [PUT /tx/:id] and [DELETE /tx/:id] answer
    404 exactly when no item of the file has the id of the path, and then
    they only read the file: nothing is written. *)
Theorem not_found_iff_unknown_id cfg r req o w :
  presents_admin cfg req →
  r = PUT_tx_id ∨ r = DELETE_tx_id →
  (status (app cfg r req o w).1 = 404 ↔ params req ∉ ids (db_file w)) ∧
  (params req ∉ ids (db_file w) →
   app cfg r req o w =
   (failed 404 "Item not found", loaded (failed 404 "Item not found") w)).
Proof.
  intros Ha Hr. rewrite served_to_admin by done.
  rewrite <- (find_by_id_None (db_file w) (params req)).
  destruct Hr as [-> | ->]; cbn [handler middleware];
    destruct (list_find (λ i, Item.id i = params req) (db_file w))
      as [[idx item]|] eqn:Hfind.
  - rewrite (put_tx_id_found _ o w idx item) by done. by split.
  - rewrite (put_tx_id_missing _ o w) by done. by split.
  - rewrite (delete_tx_id_found _ w idx item) by done. by split.
  - rewrite (delete_tx_id_missing _ w) by done. by split.
Qed.

Lemma not_found_iff_unknown_id_witness :
  let req := Sample.req (Some Sample.admin_key) (js "0000")
               VUndefined VUndefined in
  presents_admin Sample.cfg req ∧
  app Sample.cfg DELETE_tx_id req Sample.o Sample.w2 =
  (failed 404 "Item not found",
   loaded (failed 404 "Item not found") Sample.w2).
Proof.
  intros req.
  assert (presents_admin Sample.cfg req) as Ha by (split; reflexivity).
  split; [exact Ha|].
  destruct (not_found_iff_unknown_id Sample.cfg DELETE_tx_id req
              Sample.o Sample.w2) as [_ Hrun].
  - exact Ha.
  - right. reflexivity.
  - apply Hrun. intros H. apply list_elem_of_In in H. simpl in H.
    destruct H as [H|[H|[]]]; discriminate H.
Defined.

(** X19: deleting the item that [POST /tx] has just created, by the id it
    was given, returns that item and leaves the file as it was before the
    creation, provided the generated id did not collide. *)
Theorem create_then_delete_restores cfg req del o o' w :
  presents_admin cfg req → presents_admin cfg del →
  text_in_bounds (body_name req) 100 →
  text_in_bounds (body_value req) 500 →
  coherent w →
  randomUUID o ∉ ids (db_file w) →
  params del = randomUUID o →
  let w1 := (app cfg POST_tx req o w).2 in
  (app cfg DELETE_tx_id del o' w1).1 = ok (PRemoved (created req o)) ∧
  db_file (app cfg DELETE_tx_id del o' w1).2 = db_file w.
Proof.
  intros Ha Hd Hn%bad_field_false Hv%bad_field_false Hc Hfresh Hp w1.
  subst w1. rewrite (served_to_admin cfg POST_tx req o) by done.
  cbn [handler middleware]. rewrite post_tx_valid by done. cbn [snd].
  rewrite served_to_admin by done. cbn [handler middleware].
  assert (created (set_apiRole Admin req) o = created req o) as -> by done.
  rewrite (delete_tx_id_found _ _ (length (db_data w)) (created req o)).
  - cbn [fst snd rewritten db_file]. rewrite delete_middle, app_nil_r.
    by rewrite Hc.
  - cbn [db_file params set_apiRole]. rewrite Hp.
    apply list_find_Some. split_and!.
    + by apply list_lookup_middle.
    + done.
    + intros j y Hj Hlt Hy. apply Hfresh. rewrite <- Hc, <- Hy.
      rewrite lookup_app_l in Hj by done.
      unfold ids. apply list_elem_of_fmap. exists y.
      split; [done|by eapply list_elem_of_lookup_2].
Qed.

Lemma create_then_delete_restores_witness :
  let req := Sample.req (Some Sample.admin_key) []
               (VString (js "mode")) (VString (js "fast")) in
  let del := Sample.req (Some Sample.admin_key) (js "c4d7")
               VUndefined VUndefined in
  presents_admin Sample.cfg req ∧
  db_file (app Sample.cfg DELETE_tx_id del Sample.o
             (app Sample.cfg POST_tx req Sample.o Sample.w2).2).2 =
  [Sample.host; Sample.port].
Proof.
  intros req del.
  assert (presents_admin Sample.cfg req) as Ha by (split; reflexivity).
  split; [exact Ha|].
  destruct (create_then_delete_restores Sample.cfg req del Sample.o Sample.o
              Sample.w2) as [_ Hfile].
  - exact Ha.
  - split; reflexivity.
  - exists (js "mode"). split; [reflexivity|simpl; lia].
  - exists (js "fast"). split; [reflexivity|simpl; lia].
  - reflexivity.
  - intros H. apply list_elem_of_In in H. simpl in H.
    destruct H as [H|[H|[]]]; discriminate H.
  - reflexivity.
  - rewrite Hfile. reflexivity.
Defined.

(** ** Updating *)

Section UpdateMore.
Context (cfg : config).

Lemma updated_id req o it : Item.id (updated req o it) = Item.id it.
Proof. done. Qed.

Lemma updated_twice req o it :
  updated req o (updated req o it) = updated req o it.
Proof.
  unfold updated. simpl.
  by destruct (good_field (body_name req) 100),
              (good_field (body_value req) 500).
Qed.

(** A field one request leaves alone and the next one sets, and the other
    way round, give what one request with both fields gives. *)
Lemma updated_partial rn rv rb o1 o2 it :
  good_field (body_value rn) 500 = false →
  good_field (body_name rv) 100 = false →
  body_name rb = body_name rn → body_value rb = body_value rv →
  updated rv o2 (updated rn o1 it) = updated rb o2 it.
Proof.
  intros Hv Hn Hbn Hbv. unfold updated. simpl.
  by rewrite Hv, Hn, Hbn, Hbv.
Qed.

(** Two [PUT /tx/:id] in a row on the same id, on the handler. *)
Lemma put_tx_id_twice r1 r2 o1 o2 w idx item :
  params r2 = params r1 →
  list_find (λ i, Item.id i = params r1) (db_file w) = Some (idx, item) →
  db_file (put_tx_id r2 o2 (put_tx_id r1 o1 w).2).2 =
  <[idx := updated r2 o2 (updated r1 o1 item)]> (db_file w).
Proof.
  intros Hp Hfind. rewrite (put_tx_id_found r1 o1 w idx item Hfind).
  cbn [snd].
  rewrite (put_tx_id_found r2 o2 _ idx (updated r1 o1 item)).
  - cbn [snd rewritten db_file]. apply list_insert_insert_eq.
  - cbn [rewritten db_file]. rewrite Hp.
    apply (list_find_insert_same _ _ _ item); [done|].
    rewrite updated_id. by apply find_by_id_inv in Hfind as [_ ?].
Qed.

End UpdateMore.

(** X20: sending the same [PUT /tx/:id] a second time, at the same clock
    value, changes nothing more: the file after the second request is the
    file after the first, whatever the request. *)
Theorem repeated_update_changes_nothing cfg req o w :
  db_file (app cfg PUT_tx_id req o (app cfg PUT_tx_id req o w).2).2 =
  db_file (app cfg PUT_tx_id req o w).2.
Proof.
  destruct (presents_admin_dec cfg req) as [Ha|Hna].
  - rewrite !(served_to_admin cfg PUT_tx_id req o) by done.
    cbn [handler middleware].
    destruct (list_find (λ i, Item.id i = params (set_apiRole Admin req))
                (db_file w)) as [[idx item]|] eqn:Hfind.
    + rewrite (put_tx_id_twice _ _ _ _ _ idx item) by done.
      rewrite updated_twice.
      by rewrite (put_tx_id_found _ _ _ _ _ Hfind).
    + rewrite (put_tx_id_missing _ o w Hfind). cbn [snd].
      by rewrite put_tx_id_missing.
  - by rewrite !mutating_needs_admin.
Qed.

(** X21: partial updates add up: a [PUT /tx/:id] that supplies a name but
    no usable value, followed by one on the same id that supplies a value
    but no usable name, leaves the file that a single [PUT /tx/:id] with
    both fields leaves at the time of the second. *)
Theorem partial_updates_add_up cfg rn rv rb o1 o2 w :
  presents_admin cfg rn → presents_admin cfg rv → presents_admin cfg rb →
  params rv = params rn → params rb = params rn →
  ¬ text_in_bounds (body_value rn) 500 →
  ¬ text_in_bounds (body_name rv) 100 →
  body_name rb = body_name rn → body_value rb = body_value rv →
  db_file (app cfg PUT_tx_id rv o2 (app cfg PUT_tx_id rn o1 w).2).2 =
  db_file (app cfg PUT_tx_id rb o2 w).2.
Proof.
  intros Han Hav Hab Hpv Hpb Hv%good_field_false Hn%good_field_false Hbn Hbv.
  rewrite (served_to_admin cfg PUT_tx_id rn o1),
          (served_to_admin cfg PUT_tx_id rv o2),
          (served_to_admin cfg PUT_tx_id rb o2) by done.
  cbn [handler middleware].
  destruct (list_find (λ i, Item.id i = params (set_apiRole Admin rn))
              (db_file w)) as [[idx item]|] eqn:Hfind.
  - rewrite (put_tx_id_twice _ _ _ _ _ idx item) by done.
    rewrite (put_tx_id_found (set_apiRole Admin rb) o2 w idx item)
      by (cbn [params set_apiRole] in *; by rewrite Hpb).
    cbn [snd rewritten db_file]. f_equal.
    by apply updated_partial.
  - rewrite (put_tx_id_missing _ o1 w Hfind). cbn [snd].
    rewrite !put_tx_id_missing; [done|..];
      cbn [params set_apiRole db_file] in *; by rewrite ?Hpv, ?Hpb.
Qed.

Lemma partial_updates_add_up_witness :
  let rn := Sample.req (Some Sample.admin_key) (js "9b2e")
              (VString (js "listen")) VUndefined in
  let rv := Sample.req (Some Sample.admin_key) (js "9b2e")
              VUndefined (VString (js "8080")) in
  let rb := Sample.req (Some Sample.admin_key) (js "9b2e")
              (VString (js "listen")) (VString (js "8080")) in
  presents_admin Sample.cfg rn ∧
  db_file (app Sample.cfg PUT_tx_id rv Sample.o
             (app Sample.cfg PUT_tx_id rn Sample.o Sample.w2).2).2 =
  [Sample.host;
   {| Item.id := js "9b2e"; Item.name := js "listen"; Item.value := js "8080";
      Item.time := 1700000001000 |}].
Proof.
  intros rn rv rb.
  assert (presents_admin Sample.cfg rn) as Ha by (split; reflexivity).
  split; [exact Ha|].
  rewrite (partial_updates_add_up Sample.cfg rn rv rb Sample.o Sample.o
             Sample.w2).
  - reflexivity.
  - exact Ha.
  - split; reflexivity.
  - split; reflexivity.
  - reflexivity.
  - reflexivity.
  - intros (s & Hs & _). discriminate Hs.
  - intros (s & Hs & _). discriminate Hs.
  - reflexivity.
  - reflexivity.
Defined.

(** ** What [POST /tx] stores *)

(** X22: a name and a value within the bounds that carry no white space at
    either end are stored exactly as sent: the item appended to the
    in-memory items and written to the file, and returned in the answer,
    has that very name and value. *)
Theorem trimmed_input_stored_verbatim cfg req o w n v :
  presents_admin cfg req →
  body_name req = VString n → body_value req = VString v →
  1 ≤ length n ≤ 100 → 1 ≤ length v ≤ 500 →
  trimmed n → trimmed v →
  let item := {| Item.id := randomUUID o; Item.name := n; Item.value := v;
                 Item.time := now o |} in
  (app cfg POST_tx req o w).1 = ok (PItem item) ∧
  db_file (app cfg POST_tx req o w).2 = db_data w ++ [item] ∧
  db_data (app cfg POST_tx req o w).2 = db_data w ++ [item].
Proof.
  intros Ha Hn Hv Hln Hlv Htn Htv item.
  rewrite served_to_admin by done. cbn [handler middleware].
  rewrite post_tx_valid;
    [|apply bad_field_false; cbn [body_name body_value set_apiRole];
      eexists; split; [eassumption|done]..].
  unfold created. cbn [fst snd db_file db_data body_name body_value set_apiRole].
  rewrite Hn, Hv. cbn [js_trim]. by rewrite !trim_id.
Qed.

Lemma trimmed_input_stored_verbatim_witness :
  let req := Sample.req (Some Sample.admin_key) []
               (VString (js "read timeout")) (VString (js "30 s")) in
  presents_admin Sample.cfg req ∧
  db_file (app Sample.cfg POST_tx req Sample.o Sample.w2).2 =
  [Sample.host; Sample.port;
   {| Item.id := js "c4d7"; Item.name := js "read timeout";
      Item.value := js "30 s"; Item.time := 1700000001000 |}].
Proof.
  intros req.
  assert (presents_admin Sample.cfg req) as Ha by (split; reflexivity).
  split; [exact Ha|].
  destruct (trimmed_input_stored_verbatim Sample.cfg req Sample.o Sample.w2
              (js "read timeout") (js "30 s")) as (_ & Hfile & _).
  - exact Ha.
  - reflexivity.
  - reflexivity.
  - simpl. lia.
  - simpl. lia.
  - split; intros c Hc; injection Hc as <-; reflexivity.
  - split; intros c Hc; injection Hc as <-; reflexivity.
  - rewrite Hfile. reflexivity.
Defined.

(** X23: an accepted [POST /tx] appends to the in-memory items and writes
    to the file an item whose name is empty exactly when the name sent
    consists of white space only, and whose value is empty exactly when
    the value sent consists of white space only. *)
Theorem stored_text_empty_iff_blank cfg req o w n v :
  presents_admin cfg req →
  body_name req = VString n → body_value req = VString v →
  1 ≤ length n ≤ 100 → 1 ≤ length v ≤ 500 →
  ∃ item,
    (app cfg POST_tx req o w).1 = ok (PItem item) ∧
    db_file (app cfg POST_tx req o w).2 = db_data w ++ [item] ∧
    db_data (app cfg POST_tx req o w).2 = db_data w ++ [item] ∧
    (Item.name item = [] ↔ blank n = true) ∧
    (Item.value item = [] ↔ blank v = true).
Proof.
  intros Ha Hn Hv Hln Hlv.
  rewrite served_to_admin by done. cbn [handler middleware].
  rewrite post_tx_valid;
    [|apply bad_field_false; cbn [body_name body_value set_apiRole];
      eexists; split; [eassumption|done]..].
  eexists. split_and!; [done|done|done|..];
    unfold created; cbn [Item.name Item.value body_name body_value set_apiRole];
    rewrite ?Hn, ?Hv; cbn [js_trim]; apply trim_nil.
Qed.

Lemma stored_text_empty_iff_blank_witness :
  let req := Sample.req (Some Sample.admin_key) []
               (VString (js "  ")) (VString (js "fast")) in
  presents_admin Sample.cfg req ∧
  ∃ item,
    db_file (app Sample.cfg POST_tx req Sample.o Sample.w2).2 =
    [Sample.host; Sample.port; item] ∧
    Item.name item = [].
Proof.
  intros req.
  assert (presents_admin Sample.cfg req) as Ha by (split; reflexivity).
  split; [exact Ha|].
  destruct (stored_text_empty_iff_blank Sample.cfg req Sample.o Sample.w2
              (js "  ") (js "fast")) as (item & _ & Hfile & _ & Hname & _).
  - exact Ha.
  - reflexivity.
  - reflexivity.
  - simpl. lia.
  - simpl. lia.
  - exists item. split; [rewrite Hfile; reflexivity|].
    apply Hname. reflexivity.
Defined.

(** ** Documents with repeated ids *)

Section FirstMatch.

(** [find] and [findIndex] return the first item with the id. *)
Lemma find_first_match (l1 l2 : document) it k :
  Item.id it = k → Forall (λ x, Item.id x ≠ k) l1 →
  list_find (λ x, Item.id x = k) (l1 ++ it :: l2) = Some (length l1, it).
Proof.
  intros Hid Hl1. apply list_find_Some. split_and!.
  - by apply list_lookup_middle.
  - done.
  - intros j y Hj Hlt. rewrite lookup_app_l in Hj by done.
    by apply (Forall_lookup_1 _ _ _ _ Hl1 Hj).
Qed.

End FirstMatch.

(** X24: when several items of the file share an id (a [db.json] edited by
    hand, say), [DELETE /tx/:id] removes the first of them only and returns
    it; the later ones stay. *)
Theorem delete_removes_first_match cfg req o w l1 it l2 :
  presents_admin cfg req →
  db_file w = l1 ++ it :: l2 →
  Item.id it = params req →
  Forall (λ x, Item.id x ≠ params req) l1 →
  app cfg DELETE_tx_id req o w =
  (ok (PRemoved it), rewritten (l1 ++ l2) (ok (PRemoved it)) w).
Proof.
  intros Ha Hd Hid Hl1. rewrite served_to_admin by done.
  cbn [handler middleware].
  rewrite (delete_tx_id_found _ w (length l1) it).
  - by rewrite Hd, delete_middle.
  - rewrite Hd. by apply find_first_match.
Qed.

Lemma delete_removes_first_match_witness :
  let twin := {| Item.id := js "6f1c"; Item.name := js "copy";
                 Item.value := js "10.0.0.9"; Item.time := 5 |} in
  let w := boot (Some [Sample.port; Sample.host; twin]) in
  let req := Sample.req (Some Sample.admin_key) (js "6f1c")
               VUndefined VUndefined in
  presents_admin Sample.cfg req ∧
  db_file (app Sample.cfg DELETE_tx_id req Sample.o w).2 = [Sample.port; twin].
Proof.
  intros twin w req.
  assert (presents_admin Sample.cfg req) as Ha by (split; reflexivity).
  split; [exact Ha|].
  rewrite (delete_removes_first_match Sample.cfg req Sample.o w
             [Sample.port] Sample.host [twin]).
  - reflexivity.
  - exact Ha.
  - reflexivity.
  - reflexivity.
  - apply Forall_singleton. intros H. discriminate H.
Defined.

(** X25: likewise [PUT /tx/:id] changes the first item with the id and no
    other: the items before and after it, later items with the same id
    included, are written back as they were. *)
Theorem update_changes_first_match cfg req o w l1 it l2 :
  presents_admin cfg req →
  db_file w = l1 ++ it :: l2 →
  Item.id it = params req →
  Forall (λ x, Item.id x ≠ params req) l1 →
  app cfg PUT_tx_id req o w =
  (ok (PItem (updated req o it)),
   rewritten (l1 ++ updated req o it :: l2) (ok (PItem (updated req o it))) w).
Proof.
  intros Ha Hd Hid Hl1. rewrite served_to_admin by done.
  cbn [handler middleware].
  rewrite (put_tx_id_found _ o w (length l1) it).
  - rewrite Hd. by rewrite insert_app_r_alt, Nat.sub_diag by done.
  - rewrite Hd. by apply find_first_match.
Qed.

Lemma update_changes_first_match_witness :
  let twin := {| Item.id := js "6f1c"; Item.name := js "copy";
                 Item.value := js "10.0.0.9"; Item.time := 5 |} in
  let w := boot (Some [Sample.host; twin]) in
  let req := Sample.req (Some Sample.admin_key) (js "6f1c")
               VUndefined (VString (js "10.0.0.3")) in
  presents_admin Sample.cfg req ∧
  db_file (app Sample.cfg PUT_tx_id req Sample.o w).2 =
  [{| Item.id := js "6f1c"; Item.name := js "host";
      Item.value := js "10.0.0.3"; Item.time := 1700000001000 |}; twin].
Proof.
  intros twin w req.
  assert (presents_admin Sample.cfg req) as Ha by (split; reflexivity).
  split; [exact Ha|].
  rewrite (update_changes_first_match Sample.cfg req Sample.o w
             [] Sample.host [twin]).
  - reflexivity.
  - exact Ha.
  - reflexivity.
  - reflexivity.
  - apply Forall_nil_2.
Defined.
